(** * charmhelpers.fetch.archiveurl — a shallow embedding

    The module [charmhelpers/fetch/archiveurl.py] downloads an archive from a
    URL, checks it against digests given in the URL fragment or by the caller
    and hands it to the archive extractor.  This file embeds its functions
    ([splituser], [splitpasswd], [ArchiveUrlFetchHandler.can_handle],
    [.download], [.install]) and proves properties of them.

    Python [str] values are modelled as [string] (sequences of 8-bit
    characters), file contents as [list Byte.byte].  Effects (file system,
    the process-wide urllib opener, calls to collaborators) are threaded
    through a state-and-exception monad over a [World]. *)

From Stdlib Require Import Ascii String DecimalString.
From stdpp Require Import base strings gmap list.

Local Open Scope string_scope.
Local Open Scope list_scope.

(** ** Strings *)

Module Str.

Definition LF : ascii := "010"%char.

(** [c in s] for a one-character [c]. *)
Fixpoint contains (c : ascii) (s : string) : bool :=
  match s with
  | EmptyString => false
  | String c' tl => if Ascii.eqb c c' then true else contains c tl
  end.

(** [s[:n]] and [s[n:]]. *)
Fixpoint take (n : nat) (s : string) : string :=
  match n, s with
  | S n', String c tl => String c (take n' tl)
  | _, _ => EmptyString
  end.

Fixpoint drop (n : nat) (s : string) : string :=
  match n, s with
  | S n', String _ tl => drop n' tl
  | _, _ => s
  end.

(** [s[a:b]] for [0 <= a <= b]. *)
Definition slice (a b : nat) (s : string) : string := take (b - a) (drop a s).

Definition startswith (c : ascii) (s : string) : bool :=
  match s with
  | String c' _ => Ascii.eqb c c'
  | EmptyString => false
  end.

Fixpoint endswith (c : ascii) (s : string) : bool :=
  match s with
  | EmptyString => false
  | String c' EmptyString => Ascii.eqb c c'
  | String _ tl => endswith c tl
  end.

(** Every character of [s] is in the class [p]. *)
Fixpoint all (p : ascii → bool) (s : string) : bool :=
  match s with
  | EmptyString => true
  | String c tl => p c && all p tl
  end.

(** ["%d" % n] *)
Definition of_nat (n : nat) : string := NilZero.string_of_uint (Nat.to_uint n).

End Str.

(** ** The fragment of [re] used by the module

    Both patterns are sequences of anchors, literal characters, capture
    groups and greedy stars over a one-character class.  Matching is by
    backtracking with a continuation, as in [re.match]: the pattern is tried
    at offset 0 only, and the match need not reach the end of the subject
    unless the pattern says so. *)

Module Re.

Inductive regex : Type :=
| Bol                                  (* ^ *)
| Eol                                  (* $ *)
| Chr (c : ascii)                      (* a literal character *)
| Star (cls : ascii → bool)            (* cls*, greedy *)
| Group (i : nat) (r : regex)          (* ( r ), numbered i *)
| Cat (r1 r2 : regex).

(** [.] without and with [re.S]; [[^c]]. *)
Definition dot (dotall : bool) : ascii → bool :=
  fun c => if dotall then true else negb (Ascii.eqb c Str.LF).
Definition notchr (c : ascii) : ascii → bool := fun c' => negb (Ascii.eqb c' c).

(** Spans of the groups matched so far, most recent first. *)
Definition spans : Type := list (nat * (nat * nat)).

(** Greedy star: take one more character of the class when possible and
    fall back to the shorter match when the continuation fails. *)
Fixpoint star {R} (cls : ascii → bool) (n : nat) (s : string)
    (k : nat → string → option R) : option R :=
  match s with
  | String c tl =>
      if cls c then
        match star cls (S n) tl k with
        | Some r => Some r
        | None => k n s
        end
      else k n s
  | EmptyString => k n s
  end.

(** [$] without [re.M]: at the end of the subject, or just before a
    newline that is its last character. *)
Definition at_eol (s : string) : bool :=
  match s with
  | EmptyString => true
  | String c EmptyString => Ascii.eqb c Str.LF
  | _ => false
  end.

Fixpoint run (r : regex) (n : nat) (s : string) (caps : spans)
    (k : nat → string → spans → option spans) : option spans :=
  match r with
  | Bol => if Nat.eqb n 0 then k n s caps else None
  | Eol => if at_eol s then k n s caps else None
  | Chr c =>
      match s with
      | String c' tl => if Ascii.eqb c c' then k (S n) tl caps else None
      | EmptyString => None
      end
  | Star cls => star cls n s (fun n' s' => k n' s' caps)
  | Group i r' => run r' n s caps (fun n' s' caps' => k n' s' ((i, (n, n')) :: caps'))
  | Cat r1 r2 => run r1 n s caps (fun n' s' caps' => run r2 n' s' caps' k)
  end.

(** [pattern.match(subject)]: the spans of a match, or [None]. *)
Definition rmatch (r : regex) (subject : string) : option spans :=
  run r 0 subject [] (fun _ _ caps => Some caps).

Fixpoint span_of (i : nat) (caps : spans) : option (nat * nat) :=
  match caps with
  | [] => None
  | (j, sp) :: tl => if Nat.eqb i j then Some sp else span_of i tl
  end.

(** [match.group(i)] for a group that took part in the match. *)
Definition group (subject : string) (caps : spans) (i : nat) : string :=
  match span_of i caps with
  | Some (a, b) => Str.slice a b subject
  | None => EmptyString
  end.

End Re.

(** ** [splituser] and [splitpasswd] *)

(** The pattern of [splituser], compiled without flags:
    [^], group 1 = [.]*, [@], group 2 = [.]*, [$]. *)
Definition userprog : Re.regex :=
  Re.Cat Re.Bol
    (Re.Cat (Re.Group 1 (Re.Star (Re.dot false)))
       (Re.Cat (Re.Chr "@")
          (Re.Cat (Re.Group 2 (Re.Star (Re.dot false))) Re.Eol))).

(** The pattern of [splitpasswd], compiled with [re.S]:
    [^], group 1 = [[^:]]*, [:], group 2 = [.]*, [$]. *)
Definition passwdprog : Re.regex :=
  Re.Cat Re.Bol
    (Re.Cat (Re.Group 1 (Re.Star (Re.notchr ":")))
       (Re.Cat (Re.Chr ":")
          (Re.Cat (Re.Group 2 (Re.Star (Re.dot true))) Re.Eol))).

Definition splituser (host : string) : option string * string :=
  match Re.rmatch userprog host with
  | Some m => (Some (Re.group host m 1), Re.group host m 2)
  | None => (None, host)
  end.

Definition splitpasswd (user : string) : string * option string :=
  match Re.rmatch passwdprog user with
  | Some m => (Re.group user m 1, Some (Re.group user m 2))
  | None => (user, None)
  end.

(** ** Values, exceptions, URL parts *)

(** The Python values that cross the module's interface. *)
Inductive pyval : Type :=
| PNone
| PBool (b : bool)
| PStr (s : string).

(** [bool(v)] *)
Definition truthy (v : pyval) : bool :=
  match v with
  | PNone => false
  | PBool b => b
  | PStr s => negb (String.eqb s EmptyString)
  end.

(** Instances of [Exception] that can travel through the module.
    [URLError] is a subclass of [OSError]; the constructor [OSError] stands
    for the instances of [OSError] that are not [URLError]s.
    [IntegrityError] and [UnsupportedAlgorithm] are what the digest verifier
    raises. *)
Inductive exn : Type :=
| URLError (reason : pyval)
| OSError (strerror : pyval)
| TypeError (msg : string)
| ValueError (msg : string)
| IntegrityError (expected : string) (actual : option string)
| UnsupportedAlgorithm (name : string)
| UnhandledSource (arg : pyval)
| OtherException (descr : string).

(** The 6-tuple of [urllib.parse.urlparse]. *)
Record ParseResult : Type := mkParseResult {
  scheme : string;
  netloc : string;
  path : string;
  params : string;
  query : string;
  fragment : string }.

(** ** [os.path] (posixpath) *)

(** [os.path.join(a, b)] *)
Definition os_path_join (a b : string) : string :=
  if Str.startswith "/" b then b
  else if (String.eqb a EmptyString || Str.endswith "/" a)%bool then a +:+ b
  else a +:+ "/" +:+ b.

(** [os.path.basename(p)]: what follows the last ['/'] of [p]; [acc] holds
    the characters read since the last ['/']. *)
Fixpoint basename_from (acc p : string) : string :=
  match p with
  | EmptyString => acc
  | String c tl =>
      if Ascii.eqb c "/" then basename_from EmptyString tl
      else basename_from (acc +:+ String c EmptyString) tl
  end.

Definition os_path_basename (p : string) : string := basename_from EmptyString p.

(** ** The world *)

Inductive node : Type :=
| File (content : list Byte.byte)
| Dir (perms : Z).

(** The one entry of the [HTTPPasswordMgrWithDefaultRealm] that [download]
    wraps in an [HTTPBasicAuthHandler]. *)
Record passman : Type := mkPassman {
  pm_realm : option string;
  pm_uri : string;
  pm_user : string;
  pm_passwd : option string }.

(** Calls that leave the module, in the order they are made. *)
Inductive event : Type :=
| EvMkdir (dir : string) (perms : Z)
| EvInstallOpener (pm : passman)
| EvUrlopen (url : string)
| EvOpenWrite (file : string)
| EvUnlink (file : string)
| EvCheckHash (file expected alg : string) (matched : bool)
| EvExtract (file : string) (dest : option string).

Record World : Type := mkWorld {
  environ : gmap string string;      (* os.environ *)
  fs : gmap string node;             (* the file system, by path *)
  opener : option passman;           (* urllib.request's installed opener *)
  trace : list event }.

Definition set_fs (f : gmap string node) (w : World) : World :=
  {| environ := environ w; fs := f; opener := opener w; trace := trace w |}.
Definition set_opener (o : option passman) (w : World) : World :=
  {| environ := environ w; fs := fs w; opener := o; trace := trace w |}.
Definition add_event (e : event) (w : World) : World :=
  {| environ := environ w; fs := fs w; opener := opener w; trace := trace w ++ [e] |}.

(** The events of a run from [w] to [w']. *)
Definition new_events (w w' : World) : list event :=
  drop (length (trace w)) (trace w').

(** [os.path.exists], [os.path.isfile], reading a file. *)
Definition path_exists (f : gmap string node) (p : string) : bool :=
  match f !! p with Some _ => true | None => false end.
Definition isfile (f : gmap string node) (p : string) : bool :=
  match f !! p with Some (File _) => true | _ => false end.
Definition read_file (f : gmap string node) (p : string) : option (list Byte.byte) :=
  match f !! p with Some (File c) => Some c | _ => None end.

(** ** State and exceptions *)

Definition M (A : Type) : Type := World → (exn + A) * World.

#[global] Instance M_ret : MRet M := λ A a w, (inr a, w).
#[global] Instance M_bind : MBind M := λ A B f m w,
  match m w with
  | (inl e, w') => (inl e, w')
  | (inr a, w') => f a w'
  end.

Definition raise {A} (e : exn) : M A := λ w, (inl e, w).
Definition lift {A} (r : exn + A) : M A := λ w, (r, w).
Definition get_world : M World := λ w, (inr w, w).
Definition modify (f : World → World) : M unit := λ w, (inr (), f w).
Definition log (e : event) : M unit := modify (add_event e).

(** [try: m  except Exception as e: h e] *)
Definition try_except {A} (m : M A) (h : exn → M A) : M A := λ w,
  match m w with
  | (inl e, w') => h e w'
  | (inr a, w') => (inr a, w')
  end.

(** ** Collaborators

    What the module imports and does not define: urllib, hashlib, the file
    system's failures, and the helpers of charmhelpers that live in other
    modules.  Their behaviour is a parameter of every definition below. *)

(** An open HTTP response: what [response.read()] gives. *)
Record Response : Type := mkResponse { read : exn + list Byte.byte }.

Record Env : Type := mkEnv {
  (* urllib.parse *)
  urlparse : string → exn + ParseResult;
  urlunparse : ParseResult → string;
  parse_qs : string → list (string * list string);   (* a dict, in insertion order *)
  (* urllib.request.urlopen, under the installed opener *)
  urlopen : option passman → string → exn + Response;
  (* hashlib *)
  algorithms_available : gset string;
  hash_fn : string → option (list Byte.byte → string);
  (* BaseFetchHandler.parse_url, BaseFetchHandler.base_url *)
  parse_url : string → exn + ParseResult;
  base_url : string → exn + string;
  (* charmhelpers.payload.archive *)
  get_archive_handler : string → pyval;
  extract : gmap string node → string → option string → exn + (string * gmap string node);
  (* failures of the operating system *)
  open_error : gmap string node → string → option exn;
  write_error : gmap string node → string → list Byte.byte → option (nat * exn);
  unlink_error : gmap string node → string → option exn;
  mkdir_error : gmap string node → string → option exn }.

Section Handler.

Context (env : Env).

(** *** Collaborators as actions *)

Definition install_opener (pm : passman) : M unit :=
  log (EvInstallOpener pm);;
  modify (set_opener (Some pm)).

Definition do_urlopen (url : string) : M Response :=
  log (EvUrlopen url);;
  w ← get_world;
  lift (urlopen env (opener w) url).

(** [open(dest, 'wb')]: fails on a directory or when the operating system
    says so, and otherwise leaves an empty file at [dest]. *)
Definition open_wb (dest : string) : M unit :=
  log (EvOpenWrite dest);;
  w ← get_world;
  match fs w !! dest with
  | Some (Dir _) => raise (OSError (PStr "Is a directory"))
  | _ =>
      match open_error env (fs w) dest with
      | Some e => raise e
      | None => modify (set_fs (<[dest := File []]> (fs w)))
      end
  end.

(** [dest_file.write(data)] and the close that ends the [with] block: on
    a failure after [n] bytes the file holds those [n] bytes. *)
Definition write_all (dest : string) (data : list Byte.byte) : M unit :=
  w ← get_world;
  match write_error env (fs w) dest data with
  | Some (n, e) => modify (set_fs (<[dest := File (take n data)]> (fs w)));; raise e
  | None => modify (set_fs (<[dest := File data]> (fs w)))
  end.

(** [os.unlink(dest)]: removes the file, or raises when the operating
    system refuses and then leaves it. *)
Definition unlink (dest : string) : M unit :=
  log (EvUnlink dest);;
  w ← get_world;
  match unlink_error env (fs w) dest with
  | Some e => raise e
  | None => modify (set_fs (delete dest (fs w)))
  end.

Definition do_extract (file : string) (dest : option string) : M string :=
  log (EvExtract file dest);;
  w ← get_world;
  match extract env (fs w) file dest with
  | inl e => raise e
  | inr (root, f') => modify (set_fs f');; mret root
  end.

(** Modelled from the spec: [charmhelpers.core.host.mkdir], the directory
    utility, which "creates a directory with a specified permission mode
    if absent; idempotent if already present".  Creating the directory can
    fail (the spec's LocalIOError). *)
Definition mkdir (dir : string) (perms : Z) : M unit :=
  log (EvMkdir dir perms);;
  w ← get_world;
  match mkdir_error env (fs w) dir with
  | Some e => raise e
  | None =>
      match fs w !! dir with
      | Some _ => mret ()
      | None => modify (set_fs (<[dir := Dir perms]> (fs w)))
      end
  end.

(** The digest of the file at [file] under [alg] equals [expected]. *)
Definition digest_matches (f : gmap string node) (file expected alg : string) : bool :=
  match hash_fn env alg with
  | Some h => bool_decide (h <$> read_file f file = Some expected)
  | None => false
  end.

(** Modelled from the spec: [charmhelpers.core.host.check_hash], the
    digest verifier, which recomputes the digest of the file's content
    and "fails with IntegrityError when the recomputed digest does not
    match the expected value"; "an unsupported name is a configuration
    error surfaced to the caller". *)
Definition check_hash (file checksum hash_type : string) : M unit :=
  w ← get_world;
  match hash_fn env hash_type with
  | None => raise (UnsupportedAlgorithm hash_type)
  | Some h =>
      let actual := h <$> read_file (fs w) file in
      if bool_decide (actual = Some checksum) then
        log (EvCheckHash file checksum hash_type true)
      else
        log (EvCheckHash file checksum hash_type false);;
        raise (IntegrityError checksum actual)
  end.

(** *** [ArchiveUrlFetchHandler.can_handle] *)

Definition can_handle (source : string) : exn + pyval :=
  match parse_url env source with
  | inl e => inl e
  | inr url_parts =>
      if negb (bool_decide (scheme url_parts ∈ ["http"; "https"; "ftp"; "file"])) then
        inr (PStr "Wrong source type")
      else
        match base_url env source with
        | inl e => inl e
        | inr base =>
            if truthy (get_archive_handler env base) then inr (PBool true)
            else inr (PBool false)
        end
  end.

(** *** [ArchiveUrlFetchHandler.download] *)

(** Lines 97-98, the body of the [try]: the write phase. *)
Definition write_response (response : Response) (dest : string) : M unit :=
  open_wb dest;;
  data ← lift (read response);
  write_all dest data.

(** Lines 99-102, the handler of [except Exception as e]. *)
Definition remove_partial (dest : string) (e : exn) : M unit :=
  w ← get_world;
  (if isfile (fs w) dest then unlink dest else mret ());;
  raise e.

(** Lines 95-102: open [source], write the body to [dest], and on an
    exception remove the file at [dest] before raising it again. *)
Definition download_from_open (source dest : string) : M unit :=
  response ← do_urlopen source;
  try_except (write_response response dest) (remove_partial dest).

Definition download (source dest : string) : M unit :=
  parts ← lift (urlparse env source);
  let proto := scheme parts in
  source ←
    (if bool_decide (proto ∈ ["http"; "https"]) then
       let '(auth, barehost) := splituser (netloc parts) in
       match auth with
       | Some auth =>
           let source :=
             urlunparse env
               (mkParseResult proto barehost (path parts) (params parts)
                  (query parts) (fragment parts)) in
           let '(username, password) := splitpasswd auth in
           install_opener (mkPassman None source username password);;
           mret source
       | None => mret source
       end
     else mret source);
  response ← do_urlopen source;
  try_except
    (open_wb dest;;
     data ← lift (read response);
     write_all dest data)
    (λ e,
       w ← get_world;
       (if isfile (fs w) dest then unlink dest else mret ());;
       raise e).

(** The credentials that [download] installs for [parts], and the URL it
    opens instead of the source. *)
Definition bare_source (parts : ParseResult) (barehost : string) : string :=
  urlunparse env
    (mkParseResult (scheme parts) barehost (path parts) (params parts)
       (query parts) (fragment parts)).

Definition credentials (parts : ParseResult) (auth barehost : string) : passman :=
  mkPassman None (bare_source parts barehost) (splitpasswd auth).1 (splitpasswd auth).2.

(** Lines 83-94: the URL that [download] opens and the world it opens it
    in, for a source that parsed to [parts]. *)
Definition with_credentials (source : string) (parts : ParseResult) (w : World) :
    string * World :=
  if bool_decide (scheme parts ∈ ["http"; "https"]) then
    match splituser (netloc parts) with
    | (Some auth, barehost) =>
        (bare_source parts barehost,
         set_opener (Some (credentials parts auth barehost))
           (add_event (EvInstallOpener (credentials parts auth barehost)) w))
    | (None, _) => (source, w)
    end
  else (source, w).

(** *** [ArchiveUrlFetchHandler.install] *)

(** The loop of lines 140-147 over [options.items()]. *)
Fixpoint check_options (dld_file : string) (options : list (string * list string)) : M unit :=
  match options with
  | [] => mret ()
  | (key, value) :: rest =>
      (if bool_decide (key ∈ algorithms_available env) then
         match value with
         | [expected] => check_hash dld_file expected key
         | _ => raise (TypeError ("Expected 1 hash value, not " +:+ Str.of_nat (length value)))
         end
       else mret ());;
      check_options dld_file rest
  end.

(** [except URLError as e: raise UnhandledSource(e.reason)]
    [except OSError as e: raise UnhandledSource(e.strerror)] *)
Definition download_handlers {A} (e : exn) : M A :=
  match e with
  | URLError reason => raise (UnhandledSource reason)
  | OSError strerror => raise (UnhandledSource strerror)
  | _ => raise e
  end.

(** [hash_type] is [None] when the caller leaves the argument out; its
    default is ['sha1'].  [dest] and [checksum] default to [None]. *)
Definition install (source : string) (dest checksum hash_type : option string) : M string :=
  let hash_type := default "sha1" hash_type in
  url_parts ← lift (parse_url env source);
  w ← get_world;
  dest_dir ←
    match environ w !! "CHARM_DIR" with
    | Some root => mret (os_path_join root "fetched")
    | None => raise (TypeError "expected str, bytes or os.PathLike object, not NoneType")
    end;
  w ← get_world;
  (if negb (path_exists (fs w) dest_dir) then mkdir dest_dir 493 else mret ());;
  let dld_file := os_path_join dest_dir (os_path_basename (path url_parts)) in
  try_except (download source dld_file) download_handlers;;
  let options := parse_qs env (fragment url_parts) in
  check_options dld_file options;;
  (match checksum with
   | Some c => if negb (String.eqb c EmptyString) then check_hash dld_file c hash_type else mret ()
   | None => mret ()
   end);;
  do_extract dld_file dest.

(** *** The phases of [install] *)

(** Lines 128-132: the destination directory and the download path. *)
Definition install_prepare (source : string) : M (ParseResult * string) :=
  url_parts ← lift (parse_url env source);
  w ← get_world;
  dest_dir ←
    match environ w !! "CHARM_DIR" with
    | Some root => mret (os_path_join root "fetched")
    | None => raise (TypeError "expected str, bytes or os.PathLike object, not NoneType")
    end;
  w ← get_world;
  (if negb (path_exists (fs w) dest_dir) then mkdir dest_dir 493 else mret ());;
  mret (url_parts, os_path_join dest_dir (os_path_basename (path url_parts))).

(** Lines 139-150: the digest checks and the extraction. *)
Definition install_verify_extract (url_parts : ParseResult) (dld_file : string)
    (dest checksum hash_type : option string) : M string :=
  check_options dld_file (parse_qs env (fragment url_parts));;
  (match checksum with
   | Some c =>
       if negb (String.eqb c EmptyString) then check_hash dld_file c (default "sha1" hash_type)
       else mret ()
   | None => mret ()
   end);;
  do_extract dld_file dest.

(** Lines 133-150: from the download on. *)
Definition install_from_download (source : string) (url_parts : ParseResult)
    (dld_file : string) (dest checksum hash_type : option string) : M string :=
  try_except (download source dld_file) download_handlers;;
  install_verify_extract url_parts dld_file dest checksum hash_type.

(** Lines 128-138: up to the end of the download. *)
Definition install_fetch (source : string) : M (ParseResult * string) :=
  '(url_parts, dld_file) ← install_prepare source;
  try_except (download source dld_file) download_handlers;;
  mret (url_parts, dld_file).

End Handler.

(** ** [ArchiveUrlFetchHandler.download_and_validate] *)

Section Validate.

Context (env : Env).

(** [urllib.request.urlretrieve(url)] without a file name: it opens [url]
    through [urlopen] under the installed opener, stores the body in a file
    of its choice and returns the path of that file (the headers it returns
    with it are dropped by the caller). *)
Context (urlretrieve :
  option passman → gmap string node → string → exn + (string * gmap string node)).

Definition do_urlretrieve (url : string) : M string :=
  log (EvUrlopen url);;
  w ← get_world;
  match urlretrieve (opener w) (fs w) url with
  | inl e => raise e
  | inr (tempfile, f') => modify (set_fs f');; mret tempfile
  end.

(** [validate] is [None] when the caller leaves the argument out; its
    default is ["sha1"]. *)
Definition download_and_validate (url hashsum : string) (validate : option string) :
    M string :=
  let validate := default "sha1" validate in
  tempfile ← do_urlretrieve url;
  check_hash env tempfile hashsum validate;;
  mret tempfile.

End Validate.

(** ** A concrete environment

    Executable stand-ins for the collaborators, used to run the handler on
    concrete URLs.  [urlparse], [urlunparse] and [parse_qs] follow CPython
    3.12's [urllib.parse] for 8-bit input (no Unicode normalisation check
    of the host, no validation of a bracketed host, percent-escapes decoded
    to one character each); the digest functions are toys. *)

Module Model.

(** [s.partition(c)]: around the first [c], or [None] when [c] is not in [s]. *)
Fixpoint partition (c : ascii) (s : string) : option (string * string) :=
  match s with
  | EmptyString => None
  | String c' tl =>
      if Ascii.eqb c c' then Some (EmptyString, tl)
      else match partition c tl with
           | Some (a, b) => Some (String c' a, b)
           | None => None
           end
  end.

(** [s.split(c)] *)
Fixpoint split (c : ascii) (s : string) : list string :=
  match s with
  | EmptyString => [EmptyString]
  | String c' tl =>
      if Ascii.eqb c c' then EmptyString :: split c tl
      else match split c tl with
           | hd :: rest => String c' hd :: rest
           | [] => [String c' EmptyString]
           end
  end.

Fixpoint map_str (f : ascii → ascii) (s : string) : string :=
  match s with
  | EmptyString => EmptyString
  | String c tl => String (f c) (map_str f tl)
  end.

Definition between (lo hi : nat) (c : ascii) : bool :=
  let n := nat_of_ascii c in (lo <=? n)%nat && (n <=? hi)%nat.
Definition is_alpha (c : ascii) : bool := between 65 90 c || between 97 122 c.
Definition is_digit (c : ascii) : bool := between 48 57 c.
Definition scheme_char (c : ascii) : bool :=
  is_alpha c || is_digit c || Ascii.eqb c "+" || Ascii.eqb c "-" || Ascii.eqb c ".".
Definition lower (c : ascii) : ascii :=
  if between 65 90 c then ascii_of_nat (nat_of_ascii c + 32) else c.

(** The netloc ends at the first of [/], [?], [#]. *)
Fixpoint split_netloc (s : string) : string * string :=
  match s with
  | EmptyString => (EmptyString, EmptyString)
  | String c tl =>
      if Ascii.eqb c "/" || Ascii.eqb c "?" || Ascii.eqb c "#" then (EmptyString, s)
      else let '(a, b) := split_netloc tl in (String c a, b)
  end.

Definition uses_params : list string :=
  [EmptyString; "ftp"; "hdl"; "prospero"; "http"; "imap"; "https"; "shttp"; "rtsp";
   "rtspu"; "sip"; "sips"; "mms"; "sftp"; "tel"].

Definition uses_netloc : list string :=
  [EmptyString; "ftp"; "http"; "gopher"; "nntp"; "telnet"; "imap"; "wais"; "file";
   "mms"; "https"; "shttp"; "snews"; "prospero"; "rtsp"; "rtspu"; "rsync";
   "svn"; "svn+ssh"; "sftp"; "nfs"; "git"; "git+ssh"; "ws"; "wss"].

(** [_splitparams]: the parameters follow the first [;] of the last
    path segment. *)
Definition splitparams (url : string) : string * string :=
  let base := os_path_basename url in
  let dir := Str.take (String.length url - String.length base) url in
  match partition ";" base with
  | Some (b, p) => (dir +:+ b, p)
  | None => (url, EmptyString)
  end.

(** [url.lstrip(...)] of the C0 control characters and the space. *)
Fixpoint lstrip_c0 (s : string) : string :=
  match s with
  | EmptyString => EmptyString
  | String c tl => if between 0 32 c then lstrip_c0 tl else s
  end.

(** Tab, carriage return and line feed are removed from the URL. *)
Fixpoint remove_unsafe (s : string) : string :=
  match s with
  | EmptyString => EmptyString
  | String c tl =>
      if Ascii.eqb c "009" || Ascii.eqb c "010" || Ascii.eqb c "013"
      then remove_unsafe tl
      else String c (remove_unsafe tl)
  end.

Definition first_is_alpha (s : string) : bool :=
  match s with
  | String c _ => is_alpha c
  | EmptyString => false
  end.

Definition py_urlparse (url : string) : exn + ParseResult :=
  let url := remove_unsafe (lstrip_c0 url) in
  let '(sch, rest) :=
    match partition ":" url with
    | Some (pre, post) =>
        if first_is_alpha url && Str.all scheme_char pre then (map_str lower pre, post)
        else (EmptyString, url)
    | None => (EmptyString, url)
    end in
  let '(loc, rest) :=
    match rest with
    | String "/" (String "/" tl) => split_netloc tl
    | _ => (EmptyString, rest)
    end in
  if xorb (Str.contains "[" loc) (Str.contains "]" loc) then
    inl (ValueError "Invalid IPv6 URL")
  else
    let '(rest, frag) :=
      match partition "#" rest with Some p => p | None => (rest, EmptyString) end in
    let '(rest, qry) :=
      match partition "?" rest with Some p => p | None => (rest, EmptyString) end in
    let '(rest, prm) :=
      if bool_decide (sch ∈ uses_params) && Str.contains ";" rest then splitparams rest
      else (rest, EmptyString) in
    inr (mkParseResult sch loc rest prm qry frag).

Definition nonempty (s : string) : bool := negb (String.eqb s EmptyString).

Definition py_urlunparse (p : ParseResult) : string :=
  let url := if nonempty (params p) then path p +:+ ";" +:+ params p else path p in
  let url :=
    if nonempty (netloc p)
       || (nonempty (scheme p) && bool_decide (scheme p ∈ uses_netloc)
           && negb (String.eqb (Str.take 2 url) "//"))
    then "//" +:+ netloc p +:+ (if nonempty url && negb (Str.startswith "/" url)
                                 then "/" +:+ url else url)
    else url in
  let url := if nonempty (scheme p) then scheme p +:+ ":" +:+ url else url in
  let url := if nonempty (query p) then url +:+ "?" +:+ query p else url in
  if nonempty (fragment p) then url +:+ "#" +:+ fragment p else url.

Definition hex_value (c : ascii) : option nat :=
  let n := nat_of_ascii c in
  if between 48 57 c then Some (n - 48)
  else if between 65 70 c then Some (n - 55)
  else if between 97 102 c then Some (n - 87)
  else None.

(** [unquote(s.replace('+', ' '))] *)
Fixpoint unquote_plus (s : string) : string :=
  match s with
  | EmptyString => EmptyString
  | String c tl =>
      if Ascii.eqb c "+" then String " " (unquote_plus tl)
      else
        match Ascii.eqb c "%", tl with
        | true, String h (String l tl') =>
            match hex_value h, hex_value l with
            | Some a, Some b => String (ascii_of_nat (16 * a + b)) (unquote_plus tl')
            | _, _ => String c (unquote_plus tl)
            end
        | _, _ => String c (unquote_plus tl)
        end
  end.

(** [d[name].append(value)] or [d[name] = [value]] *)
Fixpoint dict_add (name value : string) (d : list (string * list string)) :
    list (string * list string) :=
  match d with
  | [] => [(name, [value])]
  | (k, vs) :: rest =>
      if String.eqb k name then (k, vs ++ [value]) :: rest
      else (k, vs) :: dict_add name value rest
  end.

(** [parse_qs] with its defaults: fields separated by [&], fields without
    [=] or with a blank value dropped. *)
Definition py_parse_qs (qs : string) : list (string * list string) :=
  fold_left
    (λ d field,
       match partition "=" field with
       | Some (name, value) =>
           if nonempty value then dict_add (unquote_plus name) (unquote_plus value) d
           else d
       | None => d
       end)
    (split "&" qs) [].

(** [BaseFetchHandler.base_url]: the URL without query and fragment. *)
Definition py_base_url (url : string) : exn + string :=
  match py_urlparse url with
  | inl e => inl e
  | inr p =>
      inr (py_urlunparse
             (mkParseResult (scheme p) (netloc p) (path p) (params p) EmptyString EmptyString))
  end.

Definition bytes (s : string) : list Byte.byte := list_byte_of_string s.

(** A toy digest: the algorithm's name and the length of the content. *)
Definition toy_digest (alg : string) (content : list Byte.byte) : string :=
  alg +:+ "-" +:+ Str.of_nat (length content).

Definition toy_algorithms : list string := ["md5"; "sha1"; "sha256"].

(** Every URL answers with the same seven bytes; nothing fails. *)
Definition env0 : Env :=
  {| urlparse := py_urlparse;
     urlunparse := py_urlunparse;
     parse_qs := py_parse_qs;
     urlopen := λ _ _, inr (mkResponse (inr (bytes "archive")));
     algorithms_available := list_to_set toy_algorithms;
     hash_fn := λ alg,
       if bool_decide (alg ∈ toy_algorithms) then Some (toy_digest alg) else None;
     parse_url := py_urlparse;
     base_url := py_base_url;
     get_archive_handler := λ _, PStr "extract_tarfile";
     extract := λ f _ dest, inr (default "/srv/charm/archives/a" dest, f);
     open_error := λ _ _, None;
     write_error := λ _ _ _, None;
     unlink_error := λ _ _, None;
     mkdir_error := λ _ _, None |}.

(** The same, with a write that fails after three bytes. *)
Definition env_disk_full : Env :=
  {| urlparse := py_urlparse;
     urlunparse := py_urlunparse;
     parse_qs := py_parse_qs;
     urlopen := λ _ _, inr (mkResponse (inr (bytes "archive")));
     algorithms_available := list_to_set toy_algorithms;
     hash_fn := λ alg,
       if bool_decide (alg ∈ toy_algorithms) then Some (toy_digest alg) else None;
     parse_url := py_urlparse;
     base_url := py_base_url;
     get_archive_handler := λ _, PStr "extract_tarfile";
     extract := λ f _ dest, inr (default "/srv/charm/archives/a" dest, f);
     open_error := λ _ _, None;
     write_error := λ _ _ _, Some (3, OSError (PStr "No space left on device"));
     unlink_error := λ _ _, None;
     mkdir_error := λ _ _, None |}.

(** A machine with [CHARM_DIR=/srv/charm] and that directory only. *)
Definition w0 : World :=
  {| environ := {[ "CHARM_DIR" := "/srv/charm" ]};
     fs := {[ "/srv/charm" := Dir 493 ]};
     opener := None;
     trace := [] |}.

End Model.

(** A [urlretrieve] for [Model.env0]: the same seven bytes, stored in one
    temporary file. *)
Definition toy_urlretrieve (o : option passman) (f : gmap string node) (url : string) :
    exn + (string * gmap string node) :=
  inr ("/tmp/tmpa1b2", <["/tmp/tmpa1b2" := File (Model.bytes "archive")]> f).

(** [Model.env0] without a network: [urlopen] fails. *)
Definition env_offline : Env :=
  {| urlparse := urlparse Model.env0;
     urlunparse := urlunparse Model.env0;
     parse_qs := parse_qs Model.env0;
     urlopen := λ _ _, inl (URLError (PStr "Name or service not known"));
     algorithms_available := algorithms_available Model.env0;
     hash_fn := hash_fn Model.env0;
     parse_url := parse_url Model.env0;
     base_url := base_url Model.env0;
     get_archive_handler := get_archive_handler Model.env0;
     extract := extract Model.env0;
     open_error := open_error Model.env0;
     write_error := write_error Model.env0;
     unlink_error := unlink_error Model.env0;
     mkdir_error := mkdir_error Model.env0 |}.

(** [Model.env0] on a file system that refuses to open files for writing
    and to create directories. *)
Definition env_readonly : Env :=
  {| urlparse := urlparse Model.env0;
     urlunparse := urlunparse Model.env0;
     parse_qs := parse_qs Model.env0;
     urlopen := urlopen Model.env0;
     algorithms_available := algorithms_available Model.env0;
     hash_fn := hash_fn Model.env0;
     parse_url := parse_url Model.env0;
     base_url := base_url Model.env0;
     get_archive_handler := get_archive_handler Model.env0;
     extract := extract Model.env0;
     open_error := λ _ _, Some (OSError (PStr "Permission denied"));
     write_error := write_error Model.env0;
     unlink_error := unlink_error Model.env0;
     mkdir_error := λ _ _, Some (OSError (PStr "Permission denied")) |}.

(** [Model.env0] on a disk that fails after three bytes of a write and then
    refuses to remove files. *)
Definition env_io_error : Env :=
  {| urlparse := urlparse Model.env0;
     urlunparse := urlunparse Model.env0;
     parse_qs := parse_qs Model.env0;
     urlopen := urlopen Model.env0;
     algorithms_available := algorithms_available Model.env0;
     hash_fn := hash_fn Model.env0;
     parse_url := parse_url Model.env0;
     base_url := base_url Model.env0;
     get_archive_handler := get_archive_handler Model.env0;
     extract := extract Model.env0;
     open_error := open_error Model.env0;
     write_error := λ _ _ _, Some (3, OSError (PStr "Input/output error"));
     unlink_error := λ _ _, Some (OSError (PStr "Read-only file system"));
     mkdir_error := mkdir_error Model.env0 |}.

(** [Model.w0] with an older download in place. *)
Definition w_old : World :=
  set_fs (<["/srv/charm/b.tgz" := File (Model.bytes "old")]> (fs Model.w0)) Model.w0.

(** [Model.w0] without [CHARM_DIR]. *)
Definition w_no_charm_dir : World :=
  {| environ := ∅; fs := fs Model.w0; opener := None; trace := [] |}.

(** An event that is neither a digest computation nor an extraction. *)
Definition quiet (ev : event) : Prop :=
  match ev with
  | EvCheckHash _ _ _ _ | EvExtract _ _ => False
  | _ => True
  end.

(** * Properties *)

(** ** Strings *)

Lemma str_take_app (a b : string) : Str.take (String.length a) (a +:+ b) = a.
Proof. induction a as [|c a IH]; simpl; [by destruct b | by rewrite IH]. Qed.

Lemma str_drop_app (a b : string) : Str.drop (String.length a) (a +:+ b) = b.
Proof. induction a as [|c a IH]; simpl; [by destruct b | done]. Qed.

Lemma str_take_length (a : string) : Str.take (String.length a) a = a.
Proof. induction a as [|c a IH]; simpl; [done | by rewrite IH]. Qed.

Lemma slice_prefix (a b : string) : Str.slice 0 (String.length a) (a +:+ b) = a.
Proof.
  unfold Str.slice. rewrite Nat.sub_0_r. simpl. apply str_take_app.
Qed.

Lemma slice_suffix (a b : string) (c : ascii) :
  Str.slice (S (String.length a)) (S (String.length a) + String.length b)
    (a +:+ String c b) = b.
Proof.
  unfold Str.slice.
  replace (S (String.length a) + String.length b - S (String.length a))
    with (String.length b) by lia.
  replace (Str.drop (S (String.length a)) (a +:+ String c b)) with b.
  - apply str_take_length.
  - induction a as [|c' a IH]; simpl; [done | exact IH].
Qed.

Lemma contains_false_all (c : ascii) (s : string) :
  Str.contains c s = false → Str.all (Re.notchr c) s = true.
Proof.
  induction s as [|c' s IH]; simpl; [done |].
  unfold Re.notchr at 1. rewrite (Ascii.eqb_sym c' c).
  destruct (Ascii.eqb c c'); [done | auto].
Qed.

Lemma all_dot_dotall (s : string) : Str.all (Re.dot true) s = true.
Proof. induction s as [|c s IH]; simpl; [done | exact IH]. Qed.

(** ** The greedy star *)

Section Star.

Context {R : Type} (cls : ascii → bool) (k : nat → string → option R).

(** The star swallows a whole string of the class when the continuation
    accepts at its end. *)
Lemma star_all (s : string) (n : nat) (r : R) :
  Str.all cls s = true →
  k (n + String.length s) EmptyString = Some r →
  Re.star cls n s k = Some r.
Proof.
  revert n. induction s as [|c s IH]; simpl; intros n Hall Hk.
  - by rewrite Nat.add_0_r in Hk.
  - apply andb_true_iff in Hall as [Hc Hs]. rewrite Hc.
    rewrite (IH (S n)); [done | done |].
    by replace (S n + String.length s) with (n + S (String.length s)) by lia.
Qed.

(** A longer match is preferred: when the star succeeds after the prefix
    [a], it succeeds the same way from the start of [a]. *)
Lemma star_app (a s : string) (n : nat) (r : R) :
  Str.all cls a = true →
  Re.star cls (n + String.length a) s k = Some r →
  Re.star cls n (a +:+ s) k = Some r.
Proof.
  revert n. induction a as [|c a IH]; simpl; intros n Hall Hs.
  - by rewrite Nat.add_0_r in Hs.
  - apply andb_true_iff in Hall as [Hc Ha]. rewrite Hc.
    rewrite (IH (S n)); [done | done |].
    by replace (S n + String.length a) with (n + S (String.length a)) by lia.
Qed.

(** No match at all when the continuation wants a character that the
    string does not have. *)
Lemma star_none (c : ascii) (s : string) (n : nat) :
  (∀ m s', Str.startswith c s' = false → k m s' = None) →
  Str.contains c s = false →
  Re.star cls n s k = None.
Proof.
  intros Hk. revert n. induction s as [|c' s IH]; simpl; intros n Hs.
  - by apply Hk.
  - destruct (Ascii.eqb c c') eqn:Hc; [done |].
    assert (k n (String c' s) = None) as Hn by (apply Hk; simpl; exact Hc).
    destruct (cls c'); [| done]. by rewrite (IH (S n) Hs).
Qed.

End Star.

(** ** [splituser], [splitpasswd] *)

(** What follows group 1 in both patterns: the separator [c], then group 2
    and the end of the line. *)
Lemma after_group1_none {R} (c : ascii) (f : string → option R) (s' : string) :
  Str.startswith c s' = false →
  match s' with
  | EmptyString => None
  | String c' tl => if Ascii.eqb c c' then f tl else None
  end = None.
Proof. destruct s' as [|c' tl]; cbn [Str.startswith]; [done | by intros ->]. Qed.

Lemma splituser_no_at (host : string) :
  Str.contains "@" host = false → splituser host = (None, host).
Proof.
  intros H. unfold splituser, Re.rmatch, userprog. cbn [Re.run Nat.eqb].
  rewrite (star_none _ _ "@" host 0); [done | | done].
  intros m s'. apply after_group1_none.
Qed.

Lemma splituser_last_at (auth host : string) :
  Str.contains Str.LF auth = false →
  Str.contains Str.LF host = false →
  Str.contains "@" host = false →
  splituser (auth +:+ "@" +:+ host) = (Some auth, host).
Proof.
  intros Hauth Hhost Hat. unfold splituser, Re.rmatch, userprog.
  cbn [Re.run Nat.eqb].
  erewrite star_app; [| by apply (contains_false_all Str.LF) | ].
  2:{ change ("@" +:+ host) with (String "@" host). cbn [Re.star].
      change (Re.dot false "@") with true. cbv iota.
      rewrite (star_none _ _ "@" host); [| | done].
      - rewrite Ascii.eqb_refl.
        apply star_all; [by apply (contains_false_all Str.LF) | done].
      - intros m s'. apply after_group1_none. }
  unfold Re.group. cbn [Re.span_of Nat.eqb]. cbv iota beta.
  change ("@" +:+ host) with (String "@" host). rewrite Nat.add_0_l.
  by rewrite slice_prefix, slice_suffix.
Qed.

Lemma splitpasswd_no_colon (user : string) :
  Str.contains ":" user = false → splitpasswd user = (user, None).
Proof.
  intros H. unfold splitpasswd, Re.rmatch, passwdprog. cbn [Re.run Nat.eqb].
  rewrite (star_none _ _ ":" user 0); [done | | done].
  intros m s'. apply after_group1_none.
Qed.

Lemma splitpasswd_first_colon (user passwd : string) :
  Str.contains ":" user = false →
  splitpasswd (user +:+ ":" +:+ passwd) = (user, Some passwd).
Proof.
  intros Huser. unfold splitpasswd, Re.rmatch, passwdprog.
  cbn [Re.run Nat.eqb].
  erewrite star_app; [| by apply contains_false_all | ].
  2:{ change (":" +:+ passwd) with (String ":" passwd). cbn [Re.star].
      change (Re.notchr ":" ":") with false. cbv iota.
      rewrite Ascii.eqb_refl.
      apply star_all; [apply all_dot_dotall | done]. }
  unfold Re.group. cbn [Re.span_of Nat.eqb]. cbv iota beta.
  change (":" +:+ passwd) with (String ":" passwd). rewrite Nat.add_0_l.
  by rewrite slice_prefix, slice_suffix.
Qed.

(** ** Running actions *)

Lemma bind_run {A B} (m : M A) (f : A → M B) (w : World) :
  (m ≫= f) w =
  match m w with
  | (inl e, w') => (inl e, w')
  | (inr a, w') => f a w'
  end.
Proof. reflexivity. Qed.

Ltac unfold_M :=
  unfold mbind, M_bind, mret, M_ret, raise, lift, get_world, modify, log, try_except in *.

Lemma new_events_app (w w' : World) (evs : list event) :
  trace w' = trace w ++ evs → new_events w w' = evs.
Proof. intros H. unfold new_events. rewrite H. apply drop_app_length. Qed.

Section Runs.

Context (env : Env).

(** [install] runs its phases one after the other. *)
Lemma install_phases source dest checksum hash_type w :
  install env source dest checksum hash_type w =
  match install_prepare env source w with
  | (inl e, w0) => (inl e, w0)
  | (inr (url_parts, dld_file), w0) =>
      install_from_download env source url_parts dld_file dest checksum hash_type w0
  end.
Proof.
  unfold install, install_prepare, install_from_download, install_verify_extract.
  unfold_M.
  destruct (parse_url env source) as [e|url_parts]; [done |].
  destruct (environ w !! "CHARM_DIR") as [root|]; [| done].
  destruct (negb (path_exists (fs w) (os_path_join root "fetched"))).
  - destruct (mkdir env (os_path_join root "fetched") 493 w) as [[e|[]] w0]; done.
  - done.
Qed.

Lemma install_from_download_run source url_parts dld_file dest checksum hash_type w0 :
  install_from_download env source url_parts dld_file dest checksum hash_type w0 =
  match download env source dld_file w0 with
  | (inl e, w1) => download_handlers e w1
  | (inr _, w1) => install_verify_extract env url_parts dld_file dest checksum hash_type w1
  end.
Proof.
  unfold install_from_download. rewrite bind_run. unfold try_except.
  destruct (download env source dld_file w0) as [[e|[]] w1]; [| done].
  by destruct e.
Qed.

Lemma install_fetch_run source w :
  install_fetch env source w =
  match install_prepare env source w with
  | (inl e, w0) => (inl e, w0)
  | (inr (url_parts, dld_file), w0) =>
      match download env source dld_file w0 with
      | (inl e, w1) => download_handlers e w1
      | (inr _, w1) => (inr (url_parts, dld_file), w1)
      end
  end.
Proof.
  unfold install_fetch. rewrite bind_run.
  destruct (install_prepare env source w) as [[e|[url_parts dld_file]] w0]; [done |].
  rewrite bind_run. unfold try_except.
  destruct (download env source dld_file w0) as [[e|[]] w1]; [| done].
  by destruct e.
Qed.

(** [install] is its fetch phase followed by the checks and the extraction. *)
Lemma install_after_fetch source dest checksum hash_type w :
  install env source dest checksum hash_type w =
  match install_fetch env source w with
  | (inl e, w1) => (inl e, w1)
  | (inr (url_parts, dld_file), w1) =>
      install_verify_extract env url_parts dld_file dest checksum hash_type w1
  end.
Proof.
  rewrite install_phases, install_fetch_run.
  destruct (install_prepare env source w) as [[e|[url_parts dld_file]] w0]; [done |].
  rewrite install_from_download_run.
  destruct (download env source dld_file w0) as [[e|[]] w1]; [| done].
  by destruct e.
Qed.

End Runs.

(** ** What each step does to the trace and to the file system *)

Section Traces.

Context (env : Env).

Lemma check_hash_cases file checksum hash_type w :
  (check_hash env file checksum hash_type w
     = (inr (), add_event (EvCheckHash file checksum hash_type true) w)
   ∧ digest_matches env (fs w) file checksum hash_type = true)
  ∨ (∃ actual,
       check_hash env file checksum hash_type w
         = (inl (IntegrityError checksum actual),
            add_event (EvCheckHash file checksum hash_type false) w)
       ∧ digest_matches env (fs w) file checksum hash_type = false)
  ∨ (check_hash env file checksum hash_type w = (inl (UnsupportedAlgorithm hash_type), w)
     ∧ digest_matches env (fs w) file checksum hash_type = false).
Proof.
  unfold check_hash, digest_matches. unfold_M.
  destruct (hash_fn env hash_type) as [h|]; [| by right; right].
  destruct (bool_decide (h <$> read_file (fs w) file = Some checksum)).
  - by left.
  - right; left. by eexists.
Qed.

Lemma do_extract_trace file dest w r w' :
  do_extract env file dest w = (r, w') →
  trace w' = trace w ++ [EvExtract file dest].
Proof.
  unfold do_extract. unfold_M. cbn.
  destruct (extract env (fs w) file dest) as [e|[root f']]; by intros [= <- <-].
Qed.

Lemma mkdir_run dir perms w :
  mkdir env dir perms w =
  match mkdir_error env (fs w) dir with
  | Some e => (inl e, add_event (EvMkdir dir perms) w)
  | None =>
      (inr (),
       if path_exists (fs w) dir then add_event (EvMkdir dir perms) w
       else set_fs (<[dir := Dir perms]> (fs w)) (add_event (EvMkdir dir perms) w))
  end.
Proof.
  unfold mkdir, path_exists. unfold_M. cbn.
  destruct (mkdir_error env (fs w) dir); [done |].
  by destruct (fs w !! dir).
Qed.

Lemma install_prepare_trace source w r w0 :
  install_prepare env source w = (r, w0) →
  ∃ evs, trace w0 = trace w ++ evs ∧ Forall quiet evs ∧
         match r with
         | inr (url_parts, _) => parse_url env source = inr url_parts
         | inl _ => True
         end.
Proof.
  unfold install_prepare. unfold_M.
  destruct (parse_url env source) as [e|url_parts].
  { intros [= <- <-]. exists []. by rewrite app_nil_r. }
  destruct (environ w !! "CHARM_DIR") as [root|].
  2:{ intros [= <- <-]. exists []. by rewrite app_nil_r. }
  destruct (negb (path_exists (fs w) (os_path_join root "fetched"))).
  - rewrite mkdir_run.
    destruct (mkdir_error env (fs w) (os_path_join root "fetched")) as [e|].
    + intros [= <- <-]. eexists [_]. split; [done |]. split; [| done].
      by repeat constructor.
    + intros [= <- <-]. eexists [_]. split; [by destruct (path_exists _ _) |].
      split; [| done]. by repeat constructor.
  - intros [= <- <-]. exists []. by rewrite app_nil_r.
Qed.

Lemma write_response_trace response dest w r w2 :
  write_response env response dest w = (r, w2) →
  trace w2 = trace w ++ [EvOpenWrite dest] ∧ opener w2 = opener w
  ∧ environ w2 = environ w.
Proof.
  unfold write_response, open_wb, write_all. unfold_M. cbn.
  destruct (fs w !! dest) as [[content|perms]|];
    try (by intros [= <- <-]);
    (destruct (open_error env (fs w) dest) as [e|]; [by intros [= <- <-] |];
     destruct (read response) as [e|data]; [by intros [= <- <-] |];
     cbn; destruct (write_error env _ dest data) as [[n e]|]; by intros [= <- <-]).
Qed.

Lemma remove_partial_run dest e w :
  remove_partial env dest e w =
  if isfile (fs w) dest then
    match unlink_error env (fs w) dest with
    | Some e' => (inl e', add_event (EvUnlink dest) w)
    | None => (inl e, set_fs (delete dest (fs w)) (add_event (EvUnlink dest) w))
    end
  else (inl e, w).
Proof.
  unfold remove_partial, unlink. unfold_M. destruct (isfile (fs w) dest); [| done].
  cbn. by destruct (unlink_error env (fs w) dest).
Qed.

Lemma download_from_open_run source dest w :
  download_from_open env source dest w =
  match urlopen env (opener w) source with
  | inl e => (inl e, add_event (EvUrlopen source) w)
  | inr response =>
      match write_response env response dest (add_event (EvUrlopen source) w) with
      | (inr _, w2) => (inr (), w2)
      | (inl e, w2) => remove_partial env dest e w2
      end
  end.
Proof.
  unfold download_from_open, do_urlopen.
  unfold mbind, M_bind, log, modify, get_world, lift, try_except. cbn.
  destruct (urlopen env (opener w) source) as [e|response]; [done |].
  by destruct (write_response env response dest _) as [[e|[]] w2].
Qed.

Lemma download_from_open_events source dest w r w1 :
  download_from_open env source dest w = (r, w1) →
  ∃ evs, trace w1 = trace w ++ EvUrlopen source :: evs
         ∧ Forall (λ ev, ev = EvOpenWrite dest ∨ ev = EvUnlink dest) evs
         ∧ opener w1 = opener w.
Proof.
  rewrite download_from_open_run.
  destruct (urlopen env (opener w) source) as [e|response].
  { intros [= <- <-]. by exists []. }
  destruct (write_response env response dest _) as [[e|[]] w2] eqn:Hw;
    apply write_response_trace in Hw as (Ht & Ho & _); cbn in Ht, Ho.
  - rewrite remove_partial_run.
    destruct (isfile (fs w2) dest); [destruct (unlink_error env (fs w2) dest) |];
      intros [= <- <-].
    + exists [EvOpenWrite dest; EvUnlink dest]. cbn. rewrite Ht, <-!app_assoc.
      split; [done |]. split; [| done]. repeat constructor; by eauto.
    + exists [EvOpenWrite dest; EvUnlink dest]. cbn. rewrite Ht, <-!app_assoc.
      split; [done |]. split; [| done]. repeat constructor; by eauto.
    + exists [EvOpenWrite dest]. rewrite Ht, <-!app_assoc.
      split; [done |]. split; [| done]. repeat constructor; by eauto.
  - intros [= <- <-]. exists [EvOpenWrite dest]. rewrite Ht, <-!app_assoc.
    split; [done |]. split; [| done]. repeat constructor; by eauto.
Qed.

Lemma download_from_open_trace source dest w r w1 :
  download_from_open env source dest w = (r, w1) →
  ∃ evs, trace w1 = trace w ++ EvUrlopen source :: evs ∧ Forall quiet evs
         ∧ opener w1 = opener w.
Proof.
  intros (evs & Ht & Hio & Ho)%download_from_open_events.
  exists evs. split; [done |]. split; [| done].
  eapply Forall_impl; [exact Hio |]. by intros ev [-> | ->].
Qed.

Lemma download_run source dest w :
  download env source dest w =
  match urlparse env source with
  | inl e => (inl e, w)
  | inr parts =>
      download_from_open env (with_credentials env source parts w).1 dest
        (with_credentials env source parts w).2
  end.
Proof.
  unfold download, download_from_open, write_response, remove_partial, install_opener.
  unfold with_credentials, credentials, bare_source.
  unfold mbind at 1, M_bind at 1, lift at 1.
  destruct (urlparse env source) as [e|parts]; [done |].
  unfold mbind at 1, M_bind at 1.
  destruct (bool_decide (scheme parts ∈ ["http"; "https"])); [| done].
  destruct (splituser (netloc parts)) as [[auth|] barehost]; [| done].
  by destruct (splitpasswd auth) as [username password].
Qed.

Lemma with_credentials_trace source parts w :
  ∃ evs, trace (with_credentials env source parts w).2 = trace w ++ evs
         ∧ Forall quiet evs.
Proof.
  unfold with_credentials.
  destruct (bool_decide (scheme parts ∈ ["http"; "https"]));
    [| exists []; by rewrite app_nil_r].
  destruct (splituser (netloc parts)) as [[auth|] barehost];
    [| exists []; by rewrite app_nil_r].
  eexists [_]. split; [done |]. by repeat constructor.
Qed.

Lemma download_trace source dest w r w1 :
  download env source dest w = (r, w1) →
  ∃ evs, trace w1 = trace w ++ evs ∧ Forall quiet evs.
Proof.
  rewrite download_run.
  destruct (urlparse env source) as [e|parts].
  { intros [= <- <-]. exists []. by rewrite app_nil_r. }
  destruct (with_credentials_trace source parts w) as (evs0 & Ht0 & Hq0).
  intros (evs & Ht & Hq & _)%download_from_open_trace.
  exists (evs0 ++ EvUrlopen (with_credentials env source parts w).1 :: evs).
  rewrite Ht, Ht0, <-app_assoc.
  split; [done |]. apply Forall_app. split; [done |]. by constructor.
Qed.

Lemma install_fetch_trace source w r w1 :
  install_fetch env source w = (r, w1) →
  ∃ evs, trace w1 = trace w ++ evs ∧ Forall quiet evs ∧
         match r with
         | inr (url_parts, _) => parse_url env source = inr url_parts
         | inl _ => True
         end.
Proof.
  rewrite install_fetch_run.
  destruct (install_prepare env source w) as [[e|[url_parts dld_file]] w0] eqn:Hp;
    apply install_prepare_trace in Hp as (evs0 & Ht0 & Hq0 & Hparse).
  { intros [= <- <-]. by exists evs0. }
  destruct (download env source dld_file w0) as [[e|[]] w'] eqn:Hd;
    apply download_trace in Hd as (evs1 & Ht1 & Hq1).
  - intros Hh. exists (evs0 ++ evs1).
    assert (w1 = w' ∧ ∃ e', r = inl e') as [-> [e' ->]].
    { destruct e; cbn in Hh; injection Hh as <- <-; eauto. }
    rewrite Ht1, Ht0, <-app_assoc. split; [done |]. split; [| done].
    by apply Forall_app.
  - intros [= <- <-]. exists (evs0 ++ evs1).
    rewrite Ht1, Ht0, <-app_assoc. split; [done |]. split; [| done].
    by apply Forall_app.
Qed.

(** The loop over the options. *)
Lemma check_options_app dld_file a b w :
  check_options env dld_file (a ++ b) w =
  match check_options env dld_file a w with
  | (inl e, w') => (inl e, w')
  | (inr _, w') => check_options env dld_file b w'
  end.
Proof.
  revert w. induction a as [|[key value] a IH]; intros w; [done |].
  cbn [app check_options]. rewrite !bind_run.
  match goal with
  | |- context [(if ?c then ?x else ?y) w] =>
      destruct ((if c then x else y) w) as [[e|[]] w']; [done |]
  end.
  apply IH.
Qed.

Lemma check_options_unsupported dld_file options w :
  (∀ key value, (key, value) ∈ options → key ∉ algorithms_available env) →
  check_options env dld_file options w = (inr (), w).
Proof.
  induction options as [|[key value] options IH]; intros Hno; [done |].
  cbn [check_options]. rewrite bind_run.
  rewrite bool_decide_eq_false_2 by (apply (Hno key value); left).
  cbn. apply IH. intros k v Hin. apply (Hno k v). by right.
Qed.

Lemma check_options_trace dld_file options w r w' :
  check_options env dld_file options w = (r, w') →
  ∃ evs,
    trace w' = trace w ++ evs ∧ fs w' = fs w ∧
    Forall (λ ev, ∃ e a m, ev = EvCheckHash dld_file e a m) evs ∧
    match r with
    | inr _ =>
        (∀ f e a m, EvCheckHash f e a m ∈ evs → m = true) ∧
        (∀ key value, (key, value) ∈ options → key ∈ algorithms_available env →
           ∃ v, value = [v] ∧ digest_matches env (fs w) dld_file v key = true
                ∧ EvCheckHash dld_file v key true ∈ evs)
    | inl err =>
        (∀ f e a, EvCheckHash f e a false ∈ evs → ∃ e' a', err = IntegrityError e' a')
    end.
Proof.
  revert w. induction options as [|[key value] options IH]; intros w.
  { intros [= <- <-]. exists []. rewrite app_nil_r. repeat split; try done.
    - intros ???? Hin. by apply elem_of_nil in Hin.
    - intros ?? Hin. by apply elem_of_nil in Hin. }
  cbn [check_options]. rewrite bind_run.
  destruct (bool_decide (key ∈ algorithms_available env)) eqn:Hkey.
  - destruct value as [|v [|v' value]].
    + intros [= <- <-]. exists []. rewrite app_nil_r. repeat split; try done.
      intros ??? Hin. by apply elem_of_nil in Hin.
    + destruct (check_hash_cases dld_file v key w)
        as [[-> Hd]|[(actual & -> & Hd)|[-> Hd]]].
      * intros (evs & Ht & Hfs & Hall & Hr)%IH. cbn in Ht, Hfs.
        exists (EvCheckHash dld_file v key true :: evs).
        rewrite Ht, <-app_assoc. split; [done |]. split; [done |].
        split; [constructor; [by eauto | done] |].
        destruct r as [err|[]].
        -- intros f e a [Heq|Hin]%elem_of_cons; [discriminate |].
           by apply (Hr f e a).
        -- destruct Hr as [Hpass Hsup]. split.
           ++ intros f e a m [Heq|Hin]%elem_of_cons; [by injection Heq as _ _ _ -> |].
              by apply (Hpass f e a).
           ++ intros k val [Heq|Hin]%elem_of_cons Hk.
              ** injection Heq as -> ->. exists v. split; [done |]. split; [done | left].
              ** destruct (Hsup k val Hin Hk) as (v0 & -> & Hd0 & Hin0).
                 exists v0. split; [done |]. split; [exact Hd0 | by right].
      * intros [= <- <-]. exists [EvCheckHash dld_file v key false].
        split; [done |]. split; [done |]. split; [constructor; [by eauto | done] |].
        intros _ _ _ _. by eauto.
      * intros [= <- <-]. exists []. rewrite app_nil_r. repeat split; try done.
        intros ??? Hin. by apply elem_of_nil in Hin.
    + intros [= <- <-]. exists []. rewrite app_nil_r. repeat split; try done.
      intros ??? Hin. by apply elem_of_nil in Hin.
  - cbn. intros (evs & Ht & Hfs & Hall & Hr)%IH. exists evs.
    split; [done |]. split; [done |]. split; [done |].
    destruct r as [err|[]]; [done |]. destruct Hr as [Hpass Hsup].
    split; [done |].
    intros k val [Heq|Hin]%elem_of_cons Hk.
    + injection Heq as -> ->. by apply bool_decide_eq_false in Hkey.
    + by apply Hsup.
Qed.

End Traces.

(** * The claims *)

(** ** C1: the answer of [can_handle] for a foreign scheme *)

Lemma can_handle_wrong_scheme (env : Env) (source : string) (url_parts : ParseResult) :
  parse_url env source = inr url_parts →
  scheme url_parts ∉ ["http"; "https"; "ftp"; "file"] →
  can_handle env source = inr (PStr "Wrong source type").
Proof.
  intros Hparse Hscheme. unfold can_handle. rewrite Hparse.
  by rewrite bool_decide_eq_false_2.
Qed.

(** C1.  For a URL whose scheme is not http, https, ftp or file, the claim
    wants a falsy answer.  On ['foo://'] the code answers with the string
    ['Wrong source type'], and [bool] of it is [True]: the source's own
    comment at this line says so. *)
Theorem can_handle_foreign_scheme_is_truthy :
  can_handle Model.env0 "foo://" = inr (PStr "Wrong source type")
  ∧ truthy (PStr "Wrong source type") = true.
Proof. split; reflexivity. Qed.

(** ** C4: [splituser] and [splitpasswd] *)

(** C4.  The claim wants the userinfo to be everything before the last
    ['@'] of every string.  On the string [a], line feed, [b@c] the code
    returns no credentials and the whole string, because the pattern of
    [splituser] is compiled without [re.S] and its dot stops at the line
    feed; [splitpasswd], whose pattern has the flag, does split a string
    with a line feed before the [':']. *)
Theorem splituser_line_feed_loses_credentials :
  let auth := "a" +:+ String Str.LF "b" in
  Str.contains "@" "c" = false
  ∧ splituser (auth +:+ "@" +:+ "c") = (None, auth +:+ "@" +:+ "c")
  ∧ splituser (auth +:+ "@" +:+ "c") ≠ (Some auth, "c")
  ∧ splitpasswd (auth +:+ ":" +:+ "c") = (auth, Some "c").
Proof.
  cbv zeta. split; [reflexivity |]. split; [reflexivity |].
  split; [discriminate | reflexivity].
Qed.

(** Where no line feed is involved the credential parser does what is
    expected of it.  For a network location [auth@host] without line feeds
    whose [host] has no ['@'] (so this ['@'] is the last one), [splituser]
    returns [auth] and [host]; for a string [bare] without ['@'] it returns
    no credentials and [bare] unchanged.  [splitpasswd] splits at the first
    [':'] (the user has none), for every password, and returns the whole
    string and no password when there is no [':']. *)
Theorem credential_parser_spec (auth host bare user passwd : string) :
  Str.contains Str.LF auth = false →
  Str.contains Str.LF host = false →
  Str.contains "@" host = false →
  Str.contains "@" bare = false →
  Str.contains ":" user = false →
  splituser (auth +:+ "@" +:+ host) = (Some auth, host)
  ∧ splituser bare = (None, bare)
  ∧ splitpasswd (user +:+ ":" +:+ passwd) = (user, Some passwd)
  ∧ splitpasswd user = (user, None).
Proof.
  intros Hauth Hhost Hat Hbare Huser.
  split; [by apply splituser_last_at |].
  split; [by apply splituser_no_at |].
  split; [by apply splitpasswd_first_colon | by apply splitpasswd_no_colon].
Qed.

Lemma credential_parser_spec_witness :
  splituser "user:pass@host" = (Some "user:pass", "host")
  ∧ splituser "host" = (None, "host")
  ∧ splitpasswd "user:pass" = ("user", Some "pass")
  ∧ splitpasswd "user" = ("user", None).
Proof.
  exact (credential_parser_spec "user:pass" "host" "host" "user" "pass"
           eq_refl eq_refl eq_refl eq_refl eq_refl).
Defined.

(** ** C7: errors of the download *)

(** C7.  When the download step of [install] raises a [URLError], [install]
    raises [UnhandledSource] with its [reason]; when it raises another
    [OSError], [UnhandledSource] with its [strerror]; other exceptions pass
    unchanged. *)
Theorem install_wraps_download_errors (env : Env) (source : string)
    (dest checksum hash_type : option string) (w : World)
    (url_parts : ParseResult) (dld_file : string) (w0 : World) (e : exn) (w1 : World) :
  install_prepare env source w = (inr (url_parts, dld_file), w0) →
  download env source dld_file w0 = (inl e, w1) →
  install env source dest checksum hash_type w =
  (inl match e with
       | URLError reason => UnhandledSource reason
       | OSError strerror => UnhandledSource strerror
       | _ => e
       end, w1).
Proof.
  intros Hprepare Hdownload.
  rewrite install_phases, Hprepare, install_from_download_run, Hdownload.
  by destruct e.
Qed.

Lemma install_wraps_download_errors_witness :
  install Model.env_disk_full "http://example.com/b.tgz" None None None Model.w0 =
  (inl (UnhandledSource (PStr "No space left on device")),
   (download Model.env_disk_full "http://example.com/b.tgz" "/srv/charm/fetched/b.tgz"
      (install_prepare Model.env_disk_full "http://example.com/b.tgz" Model.w0).2).2).
Proof.
  apply (install_wraps_download_errors Model.env_disk_full "http://example.com/b.tgz"
           None None None Model.w0
           (mkParseResult "http" "example.com" "/b.tgz" EmptyString EmptyString EmptyString)
           "/srv/charm/fetched/b.tgz"
           (install_prepare Model.env_disk_full "http://example.com/b.tgz" Model.w0).2
           (OSError (PStr "No space left on device"))).
  - vm_compute. reflexivity.
  - vm_compute. reflexivity.
Defined.

(** ** C9: schemes other than http and https *)

(** C9.  When the scheme of the source is neither http nor https,
    [download] takes no credentials from the network location, installs no
    opener and opens the source string itself: it is lines 95-102 run on
    the source, whatever the network location is. *)
Theorem download_other_scheme_keeps_source (env : Env) (source dest : string) (w : World)
    (parts : ParseResult) :
  urlparse env source = inr parts →
  scheme parts ∉ ["http"; "https"] →
  with_credentials env source parts w = (source, w)
  ∧ download env source dest w = download_from_open env source dest w
  ∧ ∀ r w', download env source dest w = (r, w') →
      opener w' = opener w
      ∧ ∃ evs, new_events w w' = EvUrlopen source :: evs
               ∧ ∀ pm, EvInstallOpener pm ∉ evs.
Proof.
  intros Hparse Hscheme.
  assert (with_credentials env source parts w = (source, w)) as Hplain.
  { unfold with_credentials. by rewrite bool_decide_eq_false_2. }
  assert (download env source dest w = download_from_open env source dest w) as Hrun.
  { by rewrite download_run, Hparse, Hplain. }
  split; [done |]. split; [done |].
  intros r w'. rewrite Hrun.
  intros (evs & Ht & Hio & Ho)%download_from_open_events.
  split; [done |]. exists evs. split; [by apply new_events_app |].
  intros pm Hin. rewrite Forall_forall in Hio.
  by destruct (Hio _ Hin).
Qed.

Lemma download_other_scheme_keeps_source_witness :
  with_credentials Model.env0 "ftp://user:pw@example.com/a.tgz"
    (mkParseResult "ftp" "user:pw@example.com" "/a.tgz" EmptyString EmptyString EmptyString) Model.w0
  = ("ftp://user:pw@example.com/a.tgz", Model.w0)
  ∧ download Model.env0 "ftp://user:pw@example.com/a.tgz" "/srv/charm/a.tgz" Model.w0
    = download_from_open Model.env0 "ftp://user:pw@example.com/a.tgz" "/srv/charm/a.tgz"
        Model.w0.
Proof.
  destruct (download_other_scheme_keeps_source Model.env0
              "ftp://user:pw@example.com/a.tgz" "/srv/charm/a.tgz" Model.w0
              (mkParseResult "ftp" "user:pw@example.com" "/a.tgz" EmptyString EmptyString EmptyString))
    as (H1 & H2 & _).
  - vm_compute. reflexivity.
  - intros Hin. apply elem_of_cons in Hin as [Heq|Hin]; [discriminate |].
    apply elem_of_cons in Hin as [Heq|Hin]; [discriminate |].
    by apply elem_of_nil in Hin.
  - split; [exact H1 | exact H2].
Defined.

(** ** C3: a failure while writing *)

(** C3, as stated, fails when [os.unlink] fails too: on a disk that breaks
    during the write and then refuses to remove files, the handler's
    [unlink] raises, its error is the one that propagates, and the three
    bytes written so far stay at the destination. *)
Lemma download_write_failure_counterexample :
  let r := download env_io_error "http://example.com/b.tgz" "/srv/charm/b.tgz" Model.w0 in
  r.1 = inl (OSError (PStr "Read-only file system"))
  ∧ read_file (fs r.2) "/srv/charm/b.tgz" = Some (Model.bytes "arc")
  ∧ new_events Model.w0 r.2 =
      [EvUrlopen "http://example.com/b.tgz"; EvOpenWrite "/srv/charm/b.tgz";
       EvUnlink "/srv/charm/b.tgz"].
Proof. cbv zeta. repeat split; vm_compute; reflexivity. Qed.

(** C3 (amended).  When [download] has opened its URL and the write phase
    (opening the destination, reading the response, writing) raises [e]:
    if a file is at [dest], the handler calls [os.unlink] on it before
    anything propagates; when the unlink succeeds the file is gone and
    [download] raises [e]; when no file is at [dest] nothing is removed
    and [download] raises [e]; in both cases no file is at [dest]
    afterwards.  When the unlink itself raises, that error propagates
    instead and the file system is as the write phase left it. *)
Theorem download_write_failure_unlinks_file (env : Env) (source dest : string)
    (w : World) (parts : ParseResult) (response : Response) (e : exn) (w2 : World) :
  urlparse env source = inr parts →
  urlopen env (opener (with_credentials env source parts w).2)
    (with_credentials env source parts w).1 = inr response →
  write_response env response dest
    (add_event (EvUrlopen (with_credentials env source parts w).1)
       (with_credentials env source parts w).2) = (inl e, w2) →
  ∃ e' w3,
    download env source dest w = (inl e', w3)
    ∧ if isfile (fs w2) dest then
        trace w3 = trace w2 ++ [EvUnlink dest]
        ∧ match unlink_error env (fs w2) dest with
          | None => e' = e ∧ fs w3 = delete dest (fs w2) ∧ isfile (fs w3) dest = false
          | Some eu => e' = eu ∧ fs w3 = fs w2
          end
      else e' = e ∧ w3 = w2 ∧ isfile (fs w3) dest = false.
Proof.
  intros Hparse Hopen Hwrite.
  rewrite download_run, Hparse, download_from_open_run, Hopen, Hwrite.
  rewrite remove_partial_run.
  destruct (isfile (fs w2) dest) eqn:Hfile.
  - destruct (unlink_error env (fs w2) dest) as [eu|].
    + by exists eu, (add_event (EvUnlink dest) w2).
    + exists e, (set_fs (delete dest (fs w2)) (add_event (EvUnlink dest) w2)).
      split; [done |]. split; [done |]. split; [done |]. split; [done |].
      cbn. unfold isfile. by rewrite lookup_delete_eq.
  - by exists e, w2.
Qed.

Lemma download_write_failure_unlinks_file_witness :
  ∃ e' w3,
    download Model.env_disk_full "http://example.com/b.tgz" "/srv/charm/b.tgz" Model.w0
    = (inl e', w3)
    ∧ e' = OSError (PStr "No space left on device")
    ∧ fs w3 = fs Model.w0
    ∧ isfile (fs w3) "/srv/charm/b.tgz" = false.
Proof.
  destruct (download_write_failure_unlinks_file Model.env_disk_full
              "http://example.com/b.tgz" "/srv/charm/b.tgz" Model.w0
              (mkParseResult "http" "example.com" "/b.tgz" EmptyString EmptyString
                 EmptyString)
              (mkResponse (inr (Model.bytes "archive")))
              (OSError (PStr "No space left on device"))
              (set_fs (<["/srv/charm/b.tgz" := File (Model.bytes "arc")]> (fs Model.w0))
                 (add_event (EvOpenWrite "/srv/charm/b.tgz")
                    (add_event (EvUrlopen "http://example.com/b.tgz") Model.w0))))
    as (e' & w3 & Hrun & Hclean).
  - vm_compute. reflexivity.
  - vm_compute. reflexivity.
  - vm_compute. reflexivity.
  - exists e', w3. split; [exact Hrun |].
    match type of Hclean with
    | (if ?c then _ else _) => replace c with true in Hclean by (vm_compute; reflexivity)
    end.
    destruct Hclean as (_ & Hclean).
    match type of Hclean with
    | match ?u with _ => _ end => replace u with (@None exn) in Hclean by reflexivity
    end.
    destruct Hclean as (-> & Hfs & Hfile).
    split; [done |]. split; [| exact Hfile].
    rewrite Hfs. vm_compute. reflexivity.
Defined.

(** ** C8: the download path and its directory *)

Lemma contains_app (c : ascii) (a b : string) :
  Str.contains c (a +:+ b) = Str.contains c a || Str.contains c b.
Proof.
  induction a as [|c' a IH]; simpl; [done |]. by destruct (Ascii.eqb c c').
Qed.

Lemma basename_from_no_slash (acc p : string) :
  Str.contains "/" acc = false → Str.contains "/" (basename_from acc p) = false.
Proof.
  revert acc. induction p as [|c p IH]; intros acc Hacc; cbn [basename_from]; [done |].
  destruct (Ascii.eqb c "/") eqn:Hc; [by apply IH |].
  apply IH. rewrite contains_app, Hacc. cbn [Str.contains orb].
  by rewrite Ascii.eqb_sym, Hc.
Qed.

Lemma basename_no_slash (p : string) : Str.contains "/" (os_path_basename p) = false.
Proof. by apply basename_from_no_slash. Qed.

Lemma startswith_contains (c : ascii) (s : string) :
  Str.contains c s = false → Str.startswith c s = false.
Proof. destruct s as [|c' s]; cbn; [done |]. by destruct (Ascii.eqb c c'). Qed.

Lemma endswith_app (c : ascii) (a b : string) :
  b ≠ EmptyString → Str.endswith c (a +:+ b) = Str.endswith c b.
Proof.
  intros Hb. induction a as [|c' a IH]; [done |].
  change (String c' a +:+ b) with (String c' (a +:+ b)).
  destruct (a +:+ b) as [|c'' s] eqn:Hab.
  - destruct a; [by cbn in Hab | done].
  - exact IH.
Qed.

Lemma fetched_dir_shape (root : string) :
  os_path_join root "fetched" ≠ EmptyString
  ∧ Str.endswith "/" (os_path_join root "fetched") = false.
Proof.
  unfold os_path_join. cbn [Str.startswith]. cbv iota.
  change (Ascii.eqb "/" "f") with false. cbv iota.
  destruct (String.eqb root EmptyString || Str.endswith "/" root).
  - split; [by destruct root |]. by rewrite endswith_app.
  - split; [by destruct root |]. by rewrite endswith_app.
Qed.

Lemma join_basename (dir p : string) :
  dir ≠ EmptyString → Str.endswith "/" dir = false →
  os_path_join dir (os_path_basename p) = dir +:+ "/" +:+ os_path_basename p.
Proof.
  intros Hdir Hend. unfold os_path_join.
  rewrite (startswith_contains _ _ (basename_no_slash p)), Hend.
  by destruct dir.
Qed.

(** C8.  With [CHARM_DIR] set to [root], the directory of the downloads is
    [fetched] under [root] and the download path is that directory, a
    ['/'] and the basename of the path of the source URL.  Before the
    download begins, [mkdir] is called on the directory with mode 0o755
    (493) when no such path exists, which creates it, and is not called
    when it exists; the download then runs on the download path. *)
Theorem install_download_path (env : Env) (source : string) (w : World)
    (url_parts : ParseResult) (root : string) :
  parse_url env source = inr url_parts →
  environ w !! "CHARM_DIR" = Some root →
  let dest_dir := os_path_join root "fetched" in
  let dld_file := os_path_join dest_dir (os_path_basename (path url_parts)) in
  dld_file = dest_dir +:+ "/" +:+ os_path_basename (path url_parts)
  ∧ install_prepare env source w =
      (if path_exists (fs w) dest_dir then (inr (url_parts, dld_file), w)
       else
         match mkdir_error env (fs w) dest_dir with
         | Some e => (inl e, add_event (EvMkdir dest_dir 493) w)
         | None =>
             (inr (url_parts, dld_file),
              set_fs (<[dest_dir := Dir 493]> (fs w)) (add_event (EvMkdir dest_dir 493) w))
         end)
  ∧ ∀ dest checksum hash_type,
      install env source dest checksum hash_type w =
      match install_prepare env source w with
      | (inl e, w0) => (inl e, w0)
      | (inr (_, file), w0) =>
          match download env source file w0 with
          | (inl e, w1) => download_handlers e w1
          | (inr _, w1) =>
              install_verify_extract env url_parts file dest checksum hash_type w1
          end
      end.
Proof.
  intros Hparse Hroot dest_dir dld_file.
  destruct (fetched_dir_shape root) as [Hne Hend].
  split; [by apply join_basename |].
  assert (install_prepare env source w =
      (if path_exists (fs w) dest_dir then (inr (url_parts, dld_file), w)
       else
         match mkdir_error env (fs w) dest_dir with
         | Some e => (inl e, add_event (EvMkdir dest_dir 493) w)
         | None =>
             (inr (url_parts, dld_file),
              set_fs (<[dest_dir := Dir 493]> (fs w)) (add_event (EvMkdir dest_dir 493) w))
         end)) as Hprepare.
  { unfold install_prepare. unfold_M. rewrite Hparse, Hroot. fold dest_dir.
    destruct (path_exists (fs w) dest_dir) eqn:Hex; cbn [negb]; [done |].
    rewrite mkdir_run, Hex.
    by destruct (mkdir_error env (fs w) dest_dir). }
  split; [exact Hprepare |].
  intros dest checksum hash_type. rewrite install_phases, Hprepare.
  destruct (path_exists (fs w) dest_dir).
  - apply install_from_download_run.
  - destruct (mkdir_error env (fs w) dest_dir); [done |].
    apply install_from_download_run.
Qed.

Lemma install_download_path_witness :
  "/srv/charm/fetched/b.tgz" = "/srv/charm/fetched" +:+ "/" +:+ "b.tgz"
  ∧ install_prepare Model.env0 "http://example.com/a/b.tgz#sha1=x" Model.w0 =
      (inr (mkParseResult "http" "example.com" "/a/b.tgz" EmptyString EmptyString "sha1=x",
            "/srv/charm/fetched/b.tgz"),
       set_fs (<["/srv/charm/fetched" := Dir 493]> (fs Model.w0))
         (add_event (EvMkdir "/srv/charm/fetched" 493) Model.w0)).
Proof.
  destruct (install_download_path Model.env0 "http://example.com/a/b.tgz#sha1=x" Model.w0
              (mkParseResult "http" "example.com" "/a/b.tgz" EmptyString EmptyString "sha1=x")
              "/srv/charm") as (Hpath & Hprepare & _).
  - vm_compute. reflexivity.
  - vm_compute. reflexivity.
  - split; [exact Hpath | exact Hprepare].
Defined.

(** ** C2: a fragment key with several values *)

(** C2, as stated, fails when a supported key stands before the key with
    two values: the loop checks the keys in the order of the fragment, so
    the digest for [md5] is computed first, and here its mismatch makes
    [install] fail with the integrity error, not with [TypeError]. *)
Lemma install_multi_value_counterexample :
  let r := install Model.env0 "http://example.com/b.tgz#md5=x&sha1=a&sha1=b"
             None None None Model.w0 in
  parse_qs Model.env0 "md5=x&sha1=a&sha1=b" = [("md5", ["x"]); ("sha1", ["a"; "b"])]
  ∧ bool_decide ("sha1" ∈ algorithms_available Model.env0) = true
  ∧ r.1 = inl (IntegrityError "x" (Some "md5-7"))
  ∧ new_events Model.w0 r.2 =
      [EvMkdir "/srv/charm/fetched" 493;
       EvUrlopen "http://example.com/b.tgz#md5=x&sha1=a&sha1=b";
       EvOpenWrite "/srv/charm/fetched/b.tgz";
       EvCheckHash "/srv/charm/fetched/b.tgz" "x" "md5" false].
Proof. cbv zeta. repeat split; vm_compute; reflexivity. Qed.

(** C2 (amended).  Let the download of [install] succeed, and let the
    fragment hold a supported key whose number of values is not one.  When
    the checks of the keys before it pass, [install] raises [TypeError]
    ("Expected 1 hash value, not n") in the world those checks left: no
    further digest is computed and the extraction is not called.  When no
    supported key stands before it, no digest is computed at all. *)
Theorem install_multi_value_type_error (env : Env) (source : string)
    (dest checksum hash_type : option string) (w : World)
    (url_parts : ParseResult) (dld_file : string) (w1 w2 : World)
    (pre post : list (string * list string)) (key : string) (value : list string) :
  install_fetch env source w = (inr (url_parts, dld_file), w1) →
  parse_qs env (fragment url_parts) = pre ++ (key, value) :: post →
  key ∈ algorithms_available env →
  length value ≠ 1 →
  check_options env dld_file pre w1 = (inr (), w2) →
  install env source dest checksum hash_type w =
    (inl (TypeError ("Expected 1 hash value, not " +:+ Str.of_nat (length value))), w2)
  ∧ (∀ f d, EvExtract f d ∉ new_events w w2)
  ∧ ((∀ k v, (k, v) ∈ pre → k ∉ algorithms_available env) →
     w2 = w1 ∧ ∀ f e a m, EvCheckHash f e a m ∉ new_events w w2).
Proof.
  intros Hfetch Hqs Hkey Hlen Hpre.
  destruct (install_fetch_trace env _ _ _ _ Hfetch) as (evs0 & Ht0 & Hq0 & _).
  destruct (check_options_trace env _ _ _ _ _ Hpre) as (evs1 & Ht1 & _ & Hchk & _).
  split; [| split].
  - rewrite install_after_fetch, Hfetch. unfold install_verify_extract.
    rewrite Hqs, bind_run, check_options_app, Hpre.
    cbn [check_options]. rewrite bind_run, bool_decide_eq_true_2 by done.
    by destruct value as [|v [|v' value]].
  - intros f d. rewrite (new_events_app w w2 (evs0 ++ evs1))
      by (by rewrite Ht1, Ht0, <-app_assoc).
    rewrite Forall_forall in Hq0. rewrite Forall_forall in Hchk.
    intros [Hin|Hin]%elem_of_app.
    + exact (Hq0 _ Hin).
    + by destruct (Hchk _ Hin) as (? & ? & ? & ?).
  - intros Hnone. rewrite (check_options_unsupported env _ _ _ Hnone) in Hpre.
    injection Hpre as <-. split; [done |].
    intros f e a m. rewrite (new_events_app w w1 evs0) by done.
    rewrite Forall_forall in Hq0. intros Hin. exact (Hq0 _ Hin).
Qed.

Lemma install_multi_value_type_error_witness :
  install Model.env0 "http://example.com/b.tgz#sha1=a&sha1=b" None None None Model.w0 =
  (inl (TypeError "Expected 1 hash value, not 2"),
   (install_fetch Model.env0 "http://example.com/b.tgz#sha1=a&sha1=b" Model.w0).2).
Proof.
  refine (proj1 (install_multi_value_type_error Model.env0
                   "http://example.com/b.tgz#sha1=a&sha1=b" None None None Model.w0
                   (mkParseResult "http" "example.com" "/b.tgz" EmptyString EmptyString "sha1=a&sha1=b")
                   "/srv/charm/fetched/b.tgz"
                   (install_fetch Model.env0 "http://example.com/b.tgz#sha1=a&sha1=b"
                      Model.w0).2
                   (install_fetch Model.env0 "http://example.com/b.tgz#sha1=a&sha1=b"
                      Model.w0).2
                   [] [] "sha1" ["a"; "b"] _ _ _ _ _)).
  - vm_compute. reflexivity.
  - vm_compute. reflexivity.
  - apply (bool_decide_unpack _). vm_compute. exact I.
  - cbn. lia.
  - reflexivity.
Defined.

(** ** The checks and the extraction *)

(** A run of lines 139-150 either fails without calling the extractor, and
    then with the integrity error if a digest did not match, or ends with
    the call of the extractor after checks that all passed. *)
Lemma install_verify_extract_shape (env : Env) (url_parts : ParseResult) (dld_file : string)
    (dest checksum hash_type : option string) (w1 : World) (res : exn + string) (w' : World) :
  install_verify_extract env url_parts dld_file dest checksum hash_type w1 = (res, w') →
  ∃ evs, trace w' = trace w1 ++ evs ∧
    ((∃ err, res = inl err
        ∧ (∀ f d, EvExtract f d ∉ evs)
        ∧ (∀ f e a, EvCheckHash f e a false ∈ evs → ∃ e' a', err = IntegrityError e' a'))
     ∨ (∃ before, evs = before ++ [EvExtract dld_file dest]
        ∧ Forall (λ ev, ∃ e a, ev = EvCheckHash dld_file e a true) before
        ∧ (∀ key value, (key, value) ∈ parse_qs env (fragment url_parts) →
             key ∈ algorithms_available env →
             ∃ v, value = [v] ∧ digest_matches env (fs w1) dld_file v key = true
                  ∧ EvCheckHash dld_file v key true ∈ before)
        ∧ (∀ c, checksum = Some c → c ≠ EmptyString →
             digest_matches env (fs w1) dld_file c (default "sha1" hash_type) = true
             ∧ EvCheckHash dld_file c (default "sha1" hash_type) true ∈ before))).
Proof.
  unfold install_verify_extract. rewrite bind_run.
  destruct (check_options env dld_file _ w1) as [[err|[]] w2] eqn:Hopts;
    apply check_options_trace in Hopts as (evs1 & Ht1 & Hfs1 & Hchk1 & Hr1).
  { intros [= <- <-]. exists evs1. split; [done |]. left. exists err.
    split; [done |]. split; [| done].
    intros f d Hin. rewrite Forall_forall in Hchk1.
    by destruct (Hchk1 _ Hin) as (? & ? & ? & ?). }
  destruct Hr1 as [Hpass1 Hsup1].
  assert (Forall (λ ev, ∃ e a, ev = EvCheckHash dld_file e a true) evs1) as Hall1.
  { rewrite Forall_forall in Hchk1 |- *. intros ev Hin.
    destruct (Hchk1 _ Hin) as (e & a & m & ->).
    rewrite (Hpass1 _ _ _ _ Hin). by eauto. }
  rewrite bind_run.
  assert (∀ w3 evs2,
    trace w3 = trace w1 ++ evs2 → 
    Forall (λ ev, ∃ e a, ev = EvCheckHash dld_file e a true) evs2 →
    (∀ ev, ev ∈ evs1 → ev ∈ evs2) →
    (∀ c, checksum = Some c → c ≠ EmptyString →
       digest_matches env (fs w1) dld_file c (default "sha1" hash_type) = true
       ∧ EvCheckHash dld_file c (default "sha1" hash_type) true ∈ evs2) →
    do_extract env dld_file dest w3 = (res, w') →
    ∃ evs, trace w' = trace w1 ++ evs ∧
      ((∃ err, res = inl err
          ∧ (∀ f d, EvExtract f d ∉ evs)
          ∧ (∀ f e a, EvCheckHash f e a false ∈ evs → ∃ e' a', err = IntegrityError e' a'))
       ∨ (∃ before, evs = before ++ [EvExtract dld_file dest]
          ∧ Forall (λ ev, ∃ e a, ev = EvCheckHash dld_file e a true) before
          ∧ (∀ key value, (key, value) ∈ parse_qs env (fragment url_parts) →
               key ∈ algorithms_available env →
               ∃ v, value = [v] ∧ digest_matches env (fs w1) dld_file v key = true
                    ∧ EvCheckHash dld_file v key true ∈ before)
          ∧ (∀ c, checksum = Some c → c ≠ EmptyString →
               digest_matches env (fs w1) dld_file c (default "sha1" hash_type) = true
               ∧ EvCheckHash dld_file c (default "sha1" hash_type) true ∈ before))))
    as Hextract.
  { intros w3 evs2 Ht Hall Hsub Hexp Hx. apply do_extract_trace in Hx.
    exists (evs2 ++ [EvExtract dld_file dest]).
    split; [by rewrite Hx, Ht, <-app_assoc |]. right. exists evs2.
    split; [done |]. split; [done |]. split; [| done].
    intros key value Hin Hkey.
    destruct (Hsup1 key value Hin Hkey) as (v & -> & Hd & Hev).
    exists v. split; [done |]. split; [done | by apply Hsub]. }
  destruct checksum as [c|].
  2:{ cbn. apply (Hextract w2 evs1); done. }
  destruct (String.eqb c EmptyString) eqn:Hc; cbn [negb].
  { cbn. apply (Hextract w2 evs1); [done | done | done |].
    intros c' [= <-] Hne. by apply String.eqb_eq in Hc. }
  destruct (check_hash_cases env dld_file c (default "sha1" hash_type) w2)
    as [[-> Hd]|[(actual & -> & Hd)|[-> Hd]]].
  - apply (Hextract _ (evs1 ++ [EvCheckHash dld_file c (default "sha1" hash_type) true])).
    + cbn. by rewrite Ht1, <-app_assoc.
    + apply Forall_app. split; [done |]. repeat constructor. by eauto.
    + intros ev Hin. apply elem_of_app. by left.
    + intros c' [= <-] _. rewrite <-Hfs1. split; [done |].
      apply elem_of_app. right. by left.
  - intros [= <- <-].
    exists (evs1 ++ [EvCheckHash dld_file c (default "sha1" hash_type) false]).
    split; [cbn; by rewrite Ht1, <-app_assoc |]. left. eexists.
    split; [done |]. split; [| by eauto].
    intros f d [Hin|Hin]%elem_of_app.
    + rewrite Forall_forall in Hall1. by destruct (Hall1 _ Hin) as (? & ? & ?).
    + apply elem_of_cons in Hin as [Heq|Hin]; [discriminate |].
      by apply elem_of_nil in Hin.
  - intros [= <- <-]. exists evs1. split; [done |]. left. eexists.
    split; [done |]. split.
    + intros f d Hin. rewrite Forall_forall in Hall1.
      by destruct (Hall1 _ Hin) as (? & ? & ?).
    + intros f e a Hin. by specialize (Hpass1 _ _ _ _ Hin).
Qed.

(** ** C5: a digest in the fragment and a checksum argument *)

(** C5.  Let the download of [install] succeed, let the fragment assert the
    digest [v] for the supported algorithm [key], and let the caller give a
    non-empty checksum [c] (for [hash_type], sha1 when left out).  Then
    [install] succeeds only if the downloaded file matches both; if it
    fails one of them, [install] fails and the extractor is not called; and
    once the checks of the fragment have passed, the checksum is checked
    too, before the extraction. *)
Theorem install_enforces_both_checks (env : Env) (source : string) (dest : option string)
    (c : string) (hash_type : option string) (w : World)
    (url_parts : ParseResult) (dld_file : string) (w1 : World) (key v : string) :
  install_fetch env source w = (inr (url_parts, dld_file), w1) →
  (key, [v]) ∈ parse_qs env (fragment url_parts) →
  key ∈ algorithms_available env →
  c ≠ EmptyString →
  (∀ r w', install env source dest (Some c) hash_type w = (inr r, w') →
     digest_matches env (fs w1) dld_file v key = true
     ∧ digest_matches env (fs w1) dld_file c (default "sha1" hash_type) = true)
  ∧ (digest_matches env (fs w1) dld_file v key = false
     ∨ digest_matches env (fs w1) dld_file c (default "sha1" hash_type) = false →
     ∃ e w', install env source dest (Some c) hash_type w = (inl e, w')
             ∧ ∀ f d, EvExtract f d ∉ new_events w w')
  ∧ (∀ w2, check_options env dld_file (parse_qs env (fragment url_parts)) w1 = (inr (), w2) →
     install env source dest (Some c) hash_type w =
     (check_hash env dld_file c (default "sha1" hash_type);;
      do_extract env dld_file dest) w2).
Proof.
  intros Hfetch Hfrag Hkey Hc.
  destruct (install_fetch_trace env _ _ _ _ Hfetch) as (evs0 & Ht0 & Hq0 & _).
  assert (∀ res w', install env source dest (Some c) hash_type w = (res, w') →
    ∃ evs, trace w' = trace w1 ++ evs ∧
      ((∃ err, res = inl err ∧ ∀ f d, EvExtract f d ∉ evs)
       ∨ (digest_matches env (fs w1) dld_file v key = true
          ∧ digest_matches env (fs w1) dld_file c (default "sha1" hash_type) = true)))
    as Hshape.
  { intros res w'. rewrite install_after_fetch, Hfetch.
    intros (evs & Ht & [(err & -> & Hnx & _)|(before & -> & _ & Hsup & Hexp)])
      %install_verify_extract_shape; exists evs || eexists; (split; [exact Ht |]).
    - left. by eauto.
    - right. destruct (Hsup key [v] Hfrag Hkey) as (v0 & [= <-] & Hd & _).
      split; [done |]. by apply (Hexp c). }
  split; [| split].
  - intros r w' Hrun. by destruct (Hshape _ _ Hrun) as (evs & _ & [(? & ? & _)|?]).
  - intros Hfail.
    destruct (install env source dest (Some c) hash_type w) as [res w'] eqn:Hrun.
    destruct (Hshape _ _ eq_refl) as (evs & Ht & [(err & -> & Hnx)|[Hd1 Hd2]]).
    + exists err, w'. split; [done |]. intros f d.
      rewrite (new_events_app w w' (evs0 ++ evs)) by (by rewrite Ht, Ht0, <-app_assoc).
      intros [Hin|Hin]%elem_of_app; [| by apply (Hnx f d)].
      rewrite Forall_forall in Hq0. exact (Hq0 _ Hin).
    + destruct Hfail; congruence.
  - intros w2 Hopts. rewrite install_after_fetch, Hfetch.
    unfold install_verify_extract. rewrite bind_run, Hopts.
    by rewrite (proj2 (String.eqb_neq c EmptyString) Hc).
Qed.

Lemma install_enforces_both_checks_witness :
  ∃ e w', install Model.env0 "http://example.com/b.tgz#sha1=sha1-7" None (Some "md5-0")
            (Some "md5") Model.w0 = (inl e, w')
          ∧ ∀ f d, EvExtract f d ∉ new_events Model.w0 w'.
Proof.
  refine (proj1 (proj2 (install_enforces_both_checks Model.env0
                   "http://example.com/b.tgz#sha1=sha1-7" None "md5-0" (Some "md5")
                   Model.w0
                   (mkParseResult "http" "example.com" "/b.tgz" EmptyString EmptyString "sha1=sha1-7")
                   "/srv/charm/fetched/b.tgz"
                   (install_fetch Model.env0 "http://example.com/b.tgz#sha1=sha1-7"
                      Model.w0).2
                   "sha1" "sha1-7" _ _ _ _)) _).
  - vm_compute. reflexivity.
  - vm_compute. left.
  - apply (bool_decide_unpack _). vm_compute. exact I.
  - discriminate.
  - right. vm_compute. reflexivity.
Defined.

(** ** C6: no extraction after a failed check *)

(** C6.  In every run of [install]: if a digest check fails, [install]
    raises the integrity error and the extractor is not called; and if the
    extractor is called, it is the last call of the run, it comes after a
    passed check for every supported key of the fragment (each with one
    value) and for a non-empty checksum argument, and no check of the run
    has failed. *)
Theorem install_checks_pass_before_extract (env : Env) (source : string)
    (dest checksum hash_type : option string) (w : World) (res : exn + string) (w' : World) :
  install env source dest checksum hash_type w = (res, w') →
  ((∃ f e a, EvCheckHash f e a false ∈ new_events w w') →
     (∃ e a, res = inl (IntegrityError e a))
     ∧ ∀ f d, EvExtract f d ∉ new_events w w')
  ∧ (∀ f d, EvExtract f d ∈ new_events w w' →
       ∃ url_parts before,
         parse_url env source = inr url_parts
         ∧ new_events w w' = before ++ [EvExtract f d]
         ∧ (∀ f' d', EvExtract f' d' ∉ before)
         ∧ (∀ f' e a m, EvCheckHash f' e a m ∈ before → m = true)
         ∧ (∀ key value, (key, value) ∈ parse_qs env (fragment url_parts) →
              key ∈ algorithms_available env →
              ∃ v, value = [v] ∧ EvCheckHash f v key true ∈ before)
         ∧ (∀ c, checksum = Some c → c ≠ EmptyString →
              EvCheckHash f c (default "sha1" hash_type) true ∈ before)).
Proof.
  rewrite install_after_fetch.
  destruct (install_fetch env source w) as [[err|[url_parts dld_file]] w1] eqn:Hfetch;
    apply install_fetch_trace in Hfetch as (evs0 & Ht0 & Hq0 & Hparse);
    rewrite Forall_forall in Hq0.
  { intros [= <- <-]. rewrite (new_events_app w w1 evs0) by done. split.
    - intros (f & e & a & Hin). destruct (Hq0 _ Hin).
    - intros f d Hin. destruct (Hq0 _ Hin). }
  intros (evs & Ht & Hshape)%install_verify_extract_shape.
  rewrite (new_events_app w w' (evs0 ++ evs)) by (by rewrite Ht, Ht0, <-app_assoc).
  destruct Hshape as [(err & -> & Hnx & Hint)|(before & -> & Hall & Hsup & Hexp)].
  - split.
    + intros (f & e & a & [Hin|Hin]%elem_of_app); [destruct (Hq0 _ Hin) |].
      destruct (Hint _ _ _ Hin) as (e' & a' & ->).
      split; [by eauto |].
      intros f' d [Hin'|Hin']%elem_of_app; [exact (Hq0 _ Hin') | by apply (Hnx f' d)].
    + intros f d [Hin|Hin]%elem_of_app; [destruct (Hq0 _ Hin) | by destruct (Hnx f d)].
  - rewrite Forall_forall in Hall.
    assert (∀ f' e a m, EvCheckHash f' e a m ∈ evs0 ++ before → m = true) as Hpass.
    { intros f' e a m [Hin|Hin]%elem_of_app; [destruct (Hq0 _ Hin) |].
      by destruct (Hall _ Hin) as (? & ? & [= _ _ _ ->]). }
    assert (∀ f' d', EvExtract f' d' ∉ evs0 ++ before) as Hnx.
    { intros f' d' [Hin|Hin]%elem_of_app; [exact (Hq0 _ Hin) |].
      by destruct (Hall _ Hin) as (? & ? & ?). }
    split.
    + intros (f & e & a & Hin). rewrite app_assoc in Hin.
      apply elem_of_app in Hin as [Hin|Hin]; [by specialize (Hpass _ _ _ _ Hin) |].
      apply elem_of_cons in Hin as [Heq|Hin]; [discriminate |].
      by apply elem_of_nil in Hin.
    + intros f d Hin. rewrite app_assoc in Hin.
      apply elem_of_app in Hin as [Hin|Hin]; [by destruct (Hnx f d) |].
      apply elem_of_cons in Hin as [Heq|Hin]; [| by apply elem_of_nil in Hin].
      injection Heq as -> ->.
      exists url_parts, (evs0 ++ before). split; [done |].
      split; [by rewrite app_assoc |]. split; [done |]. split; [done |]. split.
      * intros key value Hin Hkey.
        destruct (Hsup key value Hin Hkey) as (v & -> & _ & Hev).
        exists v. split; [done |]. apply elem_of_app. by right.
      * intros c Hc Hne. apply elem_of_app. right. by apply (Hexp c).
Qed.

Lemma install_checks_pass_before_extract_witness :
  let w' := (install Model.env0 "http://example.com/b.tgz#sha1=bad" None None None
               Model.w0).2 in
  (∃ e a, (install Model.env0 "http://example.com/b.tgz#sha1=bad" None None None
             Model.w0).1 = inl (IntegrityError e a))
  ∧ ∀ f d, EvExtract f d ∉ new_events Model.w0 w'.
Proof.
  refine (proj1 (install_checks_pass_before_extract Model.env0
                   "http://example.com/b.tgz#sha1=bad" None None None Model.w0
                   (install Model.env0 "http://example.com/b.tgz#sha1=bad" None None None
                      Model.w0).1
                   (install Model.env0 "http://example.com/b.tgz#sha1=bad" None None None
                      Model.w0).2 _) _).
  - by destruct (install Model.env0 _ None None None Model.w0).
  - exists "/srv/charm/fetched/b.tgz", "bad", "sha1". vm_compute.
    do 3 right. left.
Defined.

(** * Further properties of the module *)

(** ** [splitpasswd] and [splituser] on every string *)

Lemma split_at_first (c : ascii) (s : string) :
  Str.contains c s = true →
  ∃ a b, s = a +:+ String c b ∧ Str.contains c a = false.
Proof.
  induction s as [|c' s IH]; cbn [Str.contains]; [done |].
  destruct (Ascii.eqb c c') eqn:Hc.
  - intros _. apply Ascii.eqb_eq in Hc as <-. by exists EmptyString, s.
  - intros (a & b & -> & Ha)%IH. exists (String c' a), b.
    split; [done |]. cbn [Str.contains]. by rewrite Hc.
Qed.

Lemma split_at_last (c : ascii) (s : string) :
  Str.contains c s = true →
  ∃ a b, s = a +:+ String c b ∧ Str.contains c b = false.
Proof.
  induction s as [|c' s IH]; cbn [Str.contains]; [done |].
  destruct (Str.contains c s) eqn:Hs.
  - intros _. destruct (IH eq_refl) as (a & b & -> & Hb).
    by exists (String c' a), b.
  - destruct (Ascii.eqb c c') eqn:Hc; [| done].
    intros _. apply Ascii.eqb_eq in Hc as <-. by exists EmptyString, s.
Qed.

(** [splitpasswd] loses nothing: the two parts and the [':'] between them
    make up the argument again, the user part has no [':'], and there is no
    password exactly when the argument has no [':']. *)
Theorem splitpasswd_rejoin (user : string) :
  match splitpasswd user with
  | (name, Some passwd) =>
      user = name +:+ ":" +:+ passwd ∧ Str.contains ":" name = false
  | (name, None) => name = user ∧ Str.contains ":" user = false
  end.
Proof.
  destruct (Str.contains ":" user) eqn:Hc.
  - destruct (split_at_first _ _ Hc) as (a & b & -> & Ha).
    change (a +:+ String ":" b) with (a +:+ ":" +:+ b).
    by rewrite splitpasswd_first_colon.
  - by rewrite splitpasswd_no_colon.
Qed.

(** On a string without line feed [splituser] loses nothing either: the
    host part has no ['@'], and there are no credentials exactly when the
    string has no ['@']. *)
Theorem splituser_rejoin (netloc : string) :
  Str.contains Str.LF netloc = false →
  match splituser netloc with
  | (Some auth, host) =>
      netloc = auth +:+ "@" +:+ host ∧ Str.contains "@" host = false
  | (None, host) => host = netloc ∧ Str.contains "@" netloc = false
  end.
Proof.
  intros Hlf. destruct (Str.contains "@" netloc) eqn:Hc.
  - destruct (split_at_last _ _ Hc) as (a & b & -> & Hb).
    rewrite contains_app in Hlf. apply orb_false_iff in Hlf as [Ha Hlf].
    cbn [Str.contains] in Hlf. change (Ascii.eqb Str.LF "@") with false in Hlf.
    change (a +:+ String "@" b) with (a +:+ "@" +:+ b).
    by rewrite splituser_last_at.
  - by rewrite splituser_no_at.
Qed.

Lemma splituser_rejoin_witness :
  match splituser "u:p@ss@example.com:8080" with
  | (Some auth, host) =>
      "u:p@ss@example.com:8080" = auth +:+ "@" +:+ host ∧ Str.contains "@" host = false
  | (None, host) =>
      host = "u:p@ss@example.com:8080"
      ∧ Str.contains "@" "u:p@ss@example.com:8080" = false
  end.
Proof. exact (splituser_rejoin "u:p@ss@example.com:8080" eq_refl). Defined.

(** The star finds nothing in a string that holds, at some place, a
    character outside the class, when the continuation fails wherever that
    character is still to come. *)
Lemma star_none_before {R} (cls : ascii → bool) (k : nat → string → option R)
    (c : ascii) (a b : string) (n : nat) :
  cls c = false →
  (∀ m a', k m (a' +:+ String c b) = None) →
  Re.star cls n (a +:+ String c b) k = None.
Proof.
  intros Hc Hk. revert n. induction a as [|c' a IH]; intros n.
  - change (EmptyString +:+ String c b) with (String c b). cbn [Re.star].
    rewrite Hc. apply (Hk n EmptyString).
  - change (String c' a +:+ String c b) with (String c' (a +:+ String c b)).
    cbn [Re.star]. rewrite IH.
    pose proof (Hk n (String c' a)) as Hn.
    change (String c' a +:+ String c b) with (String c' (a +:+ String c b)) in Hn.
    rewrite Hn. by destruct (cls c').
Qed.

Lemma at_eol_inner (a b : string) :
  b ≠ EmptyString → Re.at_eol (a +:+ String Str.LF b) = false.
Proof.
  intros Hb. destruct a as [|c a].
  - change (EmptyString +:+ String Str.LF b) with (String Str.LF b). by destruct b.
  - change (String c a +:+ String Str.LF b) with (String c (a +:+ String Str.LF b)).
    cbn [Re.at_eol]. destruct (a +:+ String Str.LF b) eqn:Hab; [| done].
    by destruct a.
Qed.

(** A line feed that is not the last character defeats [splituser]: it
    returns no credentials and the string as it is, also when the string
    has an ['@']. *)
Theorem splituser_inner_line_feed (a b : string) :
  b ≠ EmptyString →
  splituser (a +:+ String Str.LF b) = (None, a +:+ String Str.LF b).
Proof.
  intros Hb. unfold splituser, Re.rmatch, userprog. cbn [Re.run Nat.eqb].
  rewrite star_none_before; [done | done |].
  intros m a'. destruct a' as [|c' a']; [done |].
  change (String c' a' +:+ String Str.LF b) with (String c' (a' +:+ String Str.LF b)).
  cbv iota beta. destruct (Ascii.eqb "@" c'); [| done].
  apply star_none_before; [done |].
  intros m' a''. by rewrite at_eol_inner.
Qed.

Lemma splituser_inner_line_feed_witness :
  splituser ("user:pw" +:+ String Str.LF "@example.com")
  = (None, "user:pw" +:+ String Str.LF "@example.com").
Proof. apply (splituser_inner_line_feed "user:pw" "@example.com"). discriminate. Defined.

Lemma slice_middle (a b r : string) (c : ascii) :
  Str.slice (S (String.length a)) (S (String.length a) + String.length b)
    (a +:+ String c (b +:+ r)) = b.
Proof.
  unfold Str.slice.
  replace (S (String.length a) + String.length b - S (String.length a))
    with (String.length b) by lia.
  replace (Str.drop (S (String.length a)) (a +:+ String c (b +:+ r))) with (b +:+ r).
  - apply str_take_app.
  - induction a as [|c' a IH]; simpl; [done | exact IH].
Qed.

(** A line feed at the very end is dropped by [splituser]: the host part
    comes back without it. *)
Theorem splituser_trailing_line_feed (auth host : string) :
  Str.contains Str.LF auth = false →
  Str.contains Str.LF host = false →
  Str.contains "@" host = false →
  splituser (auth +:+ "@" +:+ host +:+ String Str.LF EmptyString) = (Some auth, host).
Proof.
  intros Hauth Hhost Hat. unfold splituser, Re.rmatch, userprog.
  cbn [Re.run Nat.eqb].
  change ("@" +:+ host +:+ String Str.LF EmptyString)
    with (String "@" (host +:+ String Str.LF EmptyString)).
  erewrite star_app; [| by apply (contains_false_all Str.LF) | ].
  2:{ cbn [Re.star]. change (Re.dot false "@") with true. cbv iota.
      rewrite (star_none _ _ "@" (host +:+ String Str.LF EmptyString)).
      - rewrite Ascii.eqb_refl.
        apply star_app; [by apply (contains_false_all Str.LF) | done].
      - intros m s'. apply after_group1_none.
      - rewrite contains_app, Hat. done. }
  unfold Re.group. cbn [Re.span_of Nat.eqb]. cbv iota beta. rewrite Nat.add_0_l.
  by rewrite slice_prefix, slice_middle.
Qed.

Lemma splituser_trailing_line_feed_witness :
  splituser ("user:pw@example.com" +:+ String Str.LF EmptyString)
  = (Some "user:pw", "example.com").
Proof.
  exact (splituser_trailing_line_feed "user:pw" "example.com" eq_refl eq_refl eq_refl).
Defined.

(** ** [can_handle] *)

(** [can_handle] answers [True] exactly for a source of an allowed scheme
    whose URL without query and fragment has an archive handler. *)
Theorem can_handle_true_iff (env : Env) (source : string) :
  can_handle env source = inr (PBool true) ↔
  ∃ url_parts base,
    parse_url env source = inr url_parts
    ∧ scheme url_parts ∈ ["http"; "https"; "ftp"; "file"]
    ∧ base_url env source = inr base
    ∧ truthy (get_archive_handler env base) = true.
Proof.
  unfold can_handle. split.
  - destruct (parse_url env source) as [e|url_parts]; [done |].
    destruct (bool_decide (scheme url_parts ∈ ["http"; "https"; "ftp"; "file"])) eqn:Hs;
      cbn [negb]; [| done].
    apply bool_decide_eq_true in Hs.
    destruct (base_url env source) as [e|base]; [done |].
    destruct (truthy (get_archive_handler env base)) eqn:Hh; [| done].
    intros _. by exists url_parts, base.
  - intros (url_parts & base & -> & Hs & -> & ->).
    by rewrite bool_decide_eq_true_2.
Qed.

(** ** [download] *)

Section Download.

Context (env : Env).

Lemma write_response_ok response dest w w2 :
  write_response env response dest w = (inr (), w2) →
  ∃ data, read response = inr data ∧ fs w2 = <[dest := File data]> (fs w).
Proof.
  unfold write_response, open_wb, write_all. unfold_M. cbn.
  destruct (fs w !! dest) as [[content|perms]|];
    try (by intros [=]);
    (destruct (open_error env (fs w) dest) as [e|]; [by intros [=] |];
     destruct (read response) as [e|data]; [by intros [=] |];
     cbn; destruct (write_error env _ dest data) as [[n e]|]; [by intros [=] |];
     intros [= <-]; exists data; cbn; by rewrite insert_insert_eq).
Qed.

Lemma write_response_frame response dest w r w2 :
  write_response env response dest w = (r, w2) →
  ∀ p, p ≠ dest → fs w2 !! p = fs w !! p.
Proof.
  unfold write_response, open_wb, write_all. unfold_M. cbn.
  destruct (fs w !! dest) as [[content|perms]|];
    try (by intros [= <- <-]);
    (destruct (open_error env (fs w) dest) as [e|]; [by intros [= <- <-] |];
     destruct (read response) as [e|data];
       [intros [= <- <-] p Hp; cbn; by rewrite lookup_insert_ne |];
     cbn; destruct (write_error env _ dest data) as [[n e]|];
       intros [= <- <-] p Hp; cbn; by rewrite !lookup_insert_ne).
Qed.

Lemma with_credentials_fs source parts w :
  fs (with_credentials env source parts w).2 = fs w
  ∧ environ (with_credentials env source parts w).2 = environ w.
Proof.
  unfold with_credentials.
  destruct (bool_decide (scheme parts ∈ ["http"; "https"])); [| done].
  by destruct (splituser (netloc parts)) as [[auth|] barehost].
Qed.

(** [download] writes to [dest] and nowhere else, and leaves the
    environment variables alone, whether it succeeds or fails. *)
Theorem download_touches_only_dest (source dest : string) (w : World)
    (r : exn + ()) (w' : World) :
  download env source dest w = (r, w') →
  environ w' = environ w ∧ ∀ p, p ≠ dest → fs w' !! p = fs w !! p.
Proof.
  rewrite download_run.
  destruct (urlparse env source) as [e|parts]; [by intros [= <- <-] |].
  destruct (with_credentials_fs source parts w) as [Hfs Henv].
  rewrite download_from_open_run.
  destruct (urlopen env _ _) as [e|response].
  { intros [= <- <-]. cbn. by rewrite Hfs, Henv. }
  destruct (write_response env response dest _) as [[e|[]] w2] eqn:Hw;
    pose proof (write_response_frame _ _ _ _ _ Hw) as Hframe;
    apply write_response_trace in Hw as (_ & _ & Henv2);
    cbn in Hframe, Henv2; rewrite Hfs in Hframe; rewrite Henv in Henv2.
  - rewrite remove_partial_run.
    destruct (isfile (fs w2) dest); [destruct (unlink_error env (fs w2) dest) |];
      intros [= <- <-]; cbn; [done | | done].
    split; [done |]. intros p Hp. rewrite lookup_delete_ne by done. by apply Hframe.
  - by intros [= <- <-].
Qed.

Lemma download_ok_inv (source dest : string) (w w' : World) :
  download env source dest w = (inr (), w') →
  ∃ parts response data,
    urlparse env source = inr parts
    ∧ urlopen env (opener (with_credentials env source parts w).2)
        (with_credentials env source parts w).1 = inr response
    ∧ read response = inr data
    ∧ fs w' = <[dest := File data]> (fs w).
Proof.
  rewrite download_run.
  destruct (urlparse env source) as [e|parts]; [done |].
  destruct (with_credentials_fs source parts w) as [Hfs _].
  rewrite download_from_open_run.
  destruct (urlopen env _ _) as [e|response] eqn:Hopen; [done |].
  destruct (write_response env response dest _) as [[e|[]] w2] eqn:Hw.
  { rewrite remove_partial_run.
    by destruct (isfile (fs w2) dest); [destruct (unlink_error env (fs w2) dest) |]. }
  intros [= <-]. apply write_response_ok in Hw as (data & Hread & Hw).
  cbn in Hw. rewrite Hfs in Hw. by exists parts, response, data.
Qed.

(** When [download] returns, the file at [dest] holds the whole body that
    the opened response gave, and the rest of the file system is as
    before. *)
Theorem download_success_stores_body (source dest : string) (w w' : World) :
  download env source dest w = (inr (), w') →
  ∃ parts response data,
    urlparse env source = inr parts
    ∧ urlopen env (opener (with_credentials env source parts w).2)
        (with_credentials env source parts w).1 = inr response
    ∧ read response = inr data
    ∧ fs w' = <[dest := File data]> (fs w).
Proof. apply download_ok_inv. Qed.

(** When the URL cannot be opened, [download] raises the error of
    [urlopen] and the file system is as before: nothing is cleaned up, and
    a file that was at [dest] is still there. *)
Theorem download_open_failure_keeps_files (source dest : string) (w : World)
    (parts : ParseResult) (e : exn) :
  urlparse env source = inr parts →
  urlopen env (opener (with_credentials env source parts w).2)
    (with_credentials env source parts w).1 = inl e →
  ∃ w', download env source dest w = (inl e, w') ∧ fs w' = fs w.
Proof.
  intros Hparse Hopen. rewrite download_run, Hparse, download_from_open_run, Hopen.
  eexists. split; [done |]. cbn. apply with_credentials_fs.
Qed.

(** When the URL opens but [dest], an existing file, cannot be opened for
    writing, the handler calls [os.unlink] on that file: when the unlink
    succeeds the old content is lost although nothing was written, and the
    error of [open] is raised; when the unlink fails the file stays and the
    error of the unlink is raised. *)
Theorem download_unwritable_dest_is_removed (source dest : string) (w : World)
    (parts : ParseResult) (response : Response) (content : list Byte.byte) (e : exn) :
  urlparse env source = inr parts →
  urlopen env (opener (with_credentials env source parts w).2)
    (with_credentials env source parts w).1 = inr response →
  fs w !! dest = Some (File content) →
  open_error env (fs w) dest = Some e →
  ∃ w', download env source dest w =
        (inl match unlink_error env (fs w) dest with
             | None => e
             | Some eu => eu
             end, w')
        ∧ fs w' = match unlink_error env (fs w) dest with
                  | None => delete dest (fs w)
                  | Some _ => fs w
                  end.
Proof.
  intros Hparse Hopen Hdest Herr.
  destruct (with_credentials_fs source parts w) as [Hfs _].
  rewrite download_run, Hparse, download_from_open_run, Hopen.
  unfold write_response, open_wb. unfold_M. cbn.
  rewrite Hfs, Hdest, Herr. rewrite remove_partial_run. unfold isfile. cbn.
  rewrite Hfs, Hdest.
  destruct (unlink_error env (fs w) dest); by eexists.
Qed.

(** For http and https with userinfo in the network location, [download]
    installs an opener that holds the user and the password for the URL
    without the userinfo, under no realm, and then opens that URL; the
    opener stays installed when [download] is over, whatever its outcome. *)
Theorem download_http_credentials (source dest : string) (w : World)
    (parts : ParseResult) (auth host : string) :
  urlparse env source = inr parts →
  scheme parts ∈ ["http"; "https"] →
  netloc parts = auth +:+ "@" +:+ host →
  Str.contains Str.LF auth = false →
  Str.contains Str.LF host = false →
  Str.contains "@" host = false →
  let bare := bare_source env parts host in
  let pm := mkPassman None bare (splitpasswd auth).1 (splitpasswd auth).2 in
  download env source dest w =
    download_from_open env bare dest
      (set_opener (Some pm) (add_event (EvInstallOpener pm) w))
  ∧ ∀ r w', download env source dest w = (r, w') →
      opener w' = Some pm
      ∧ ∃ evs, new_events w w' = EvInstallOpener pm :: EvUrlopen bare :: evs.
Proof.
  intros Hparse Hscheme Hnetloc Hauth Hhost Hat bare pm.
  assert (download env source dest w =
    download_from_open env bare dest
      (set_opener (Some pm) (add_event (EvInstallOpener pm) w))) as Hrun.
  { rewrite download_run, Hparse. unfold with_credentials.
    rewrite bool_decide_eq_true_2 by done.
    by rewrite Hnetloc, splituser_last_at. }
  split; [exact Hrun |]. intros r w'. rewrite Hrun.
  intros (evs & Ht & _ & Ho)%download_from_open_events. cbn in Ht, Ho.
  split; [done |]. exists evs. apply new_events_app. by rewrite Ht, <-app_assoc.
Qed.

(** For http and https without ['@'] in the network location, [download]
    installs nothing and opens the source as it is. *)
Theorem download_http_without_userinfo (source dest : string) (w : World)
    (parts : ParseResult) :
  urlparse env source = inr parts →
  Str.contains "@" (netloc parts) = false →
  download env source dest w = download_from_open env source dest w
  ∧ ∀ r w', download env source dest w = (r, w') → opener w' = opener w.
Proof.
  intros Hparse Hat.
  assert (download env source dest w = download_from_open env source dest w) as Hrun.
  { rewrite download_run, Hparse. unfold with_credentials.
    rewrite splituser_no_at by done.
    by destruct (bool_decide (scheme parts ∈ ["http"; "https"])). }
  split; [exact Hrun |]. intros r w'. rewrite Hrun.
  by intros (evs & _ & _ & Ho)%download_from_open_events.
Qed.

End Download.

Lemma download_touches_only_dest_witness :
  let w' := (download Model.env_disk_full "http://example.com/b.tgz" "/srv/charm/b.tgz"
               w_old).2 in
  environ w' = environ w_old
  ∧ ∀ p, p ≠ "/srv/charm/b.tgz" → fs w' !! p = fs w_old !! p.
Proof.
  refine (download_touches_only_dest Model.env_disk_full "http://example.com/b.tgz"
            "/srv/charm/b.tgz" w_old
            (download Model.env_disk_full "http://example.com/b.tgz" "/srv/charm/b.tgz"
               w_old).1 _ _).
  by destruct (download Model.env_disk_full _ _ w_old).
Defined.

Lemma download_success_stores_body_witness :
  ∃ parts response data,
    urlparse Model.env0 "http://example.com/b.tgz" = inr parts
    ∧ urlopen Model.env0
        (opener (with_credentials Model.env0 "http://example.com/b.tgz" parts w_old).2)
        (with_credentials Model.env0 "http://example.com/b.tgz" parts w_old).1
      = inr response
    ∧ read response = inr data
    ∧ fs (download Model.env0 "http://example.com/b.tgz" "/srv/charm/b.tgz" w_old).2
      = <["/srv/charm/b.tgz" := File data]> (fs w_old).
Proof.
  apply (download_success_stores_body Model.env0 "http://example.com/b.tgz"
           "/srv/charm/b.tgz" w_old).
  vm_compute. reflexivity.
Defined.

Lemma download_open_failure_keeps_files_witness :
  ∃ w', download env_offline "http://example.com/b.tgz" "/srv/charm/b.tgz" w_old
        = (inl (URLError (PStr "Name or service not known")), w')
        ∧ fs w' = fs w_old.
Proof.
  apply (download_open_failure_keeps_files env_offline "http://example.com/b.tgz"
           "/srv/charm/b.tgz" w_old
           (mkParseResult "http" "example.com" "/b.tgz" EmptyString EmptyString
              EmptyString)).
  - vm_compute. reflexivity.
  - vm_compute. reflexivity.
Defined.

Lemma download_unwritable_dest_is_removed_witness :
  ∃ w', download env_readonly "http://example.com/b.tgz" "/srv/charm/b.tgz" w_old
        = (inl (OSError (PStr "Permission denied")), w')
        ∧ fs w' = delete "/srv/charm/b.tgz" (fs w_old).
Proof.
  apply (download_unwritable_dest_is_removed env_readonly "http://example.com/b.tgz"
           "/srv/charm/b.tgz" w_old
           (mkParseResult "http" "example.com" "/b.tgz" EmptyString EmptyString
              EmptyString)
           (mkResponse (inr (Model.bytes "archive"))) (Model.bytes "old")).
  - vm_compute. reflexivity.
  - vm_compute. reflexivity.
  - vm_compute. reflexivity.
  - vm_compute. reflexivity.
Defined.

Lemma download_http_credentials_witness :
  let pm := mkPassman None "https://example.com/a/b.tgz" "u" (Some "p@ss") in
  download Model.env0 "https://u:p@ss@example.com/a/b.tgz" "/srv/charm/b.tgz" Model.w0 =
  download_from_open Model.env0 "https://example.com/a/b.tgz" "/srv/charm/b.tgz"
    (set_opener (Some pm) (add_event (EvInstallOpener pm) Model.w0)).
Proof.
  refine (proj1 (download_http_credentials Model.env0
                   "https://u:p@ss@example.com/a/b.tgz" "/srv/charm/b.tgz" Model.w0
                   (mkParseResult "https" "u:p@ss@example.com" "/a/b.tgz" EmptyString
                      EmptyString EmptyString)
                   "u:p@ss" "example.com" _ _ _ _ _ _)).
  - vm_compute. reflexivity.
  - apply elem_of_cons. right. apply elem_of_cons. by left.
  - reflexivity.
  - reflexivity.
  - reflexivity.
  - reflexivity.
Defined.

Lemma download_http_without_userinfo_witness :
  download Model.env0 "http://example.com/a/b.tgz" "/srv/charm/b.tgz" Model.w0 =
  download_from_open Model.env0 "http://example.com/a/b.tgz" "/srv/charm/b.tgz" Model.w0.
Proof.
  refine (proj1 (download_http_without_userinfo Model.env0 "http://example.com/a/b.tgz"
                   "/srv/charm/b.tgz" Model.w0
                   (mkParseResult "http" "example.com" "/a/b.tgz" EmptyString
                      EmptyString EmptyString) _ _)).
  - vm_compute. reflexivity.
  - reflexivity.
Defined.

(** ** The loop over the fragment *)

(** Keys of the fragment that name no available algorithm play no part:
    the loop runs as it does on the fragment without them, also when such a
    key has several values. *)
Theorem check_options_skips_unsupported (env : Env) (dld_file : string)
    (options : list (string * list string)) (w : World) :
  check_options env dld_file
    (filter (λ kv, kv.1 ∈ algorithms_available env) options) w
  = check_options env dld_file options w.
Proof.
  revert w. induction options as [|[key value] options IH]; intros w; [done |].
  rewrite filter_cons. cbn [fst]. destruct (decide (key ∈ algorithms_available env)) as [Hk|Hk].
  - cbn [check_options]. rewrite !bind_run.
    match goal with
    | |- context [(if ?c then ?x else ?y) w] =>
        destruct ((if c then x else y) w) as [[e|[]] w']; [done |]
    end.
    apply IH.
  - cbn [check_options]. rewrite bind_run, bool_decide_eq_false_2 by done.
    cbn. apply IH.
Qed.

(** When the loop ends without an exception, it has computed one digest
    for each supported key, in the order of the fragment, each has
    matched, and nothing but the trace has changed. *)
Theorem check_options_success_trace (env : Env) (dld_file : string)
    (options : list (string * list string)) (w w' : World) :
  check_options env dld_file options w = (inr (), w') →
  w' = {| environ := environ w; fs := fs w; opener := opener w;
          trace := trace w ++
            (options ≫= λ kv,
               if bool_decide (kv.1 ∈ algorithms_available env)
               then (λ v, EvCheckHash dld_file v kv.1 true) <$> kv.2
               else []) |}.
Proof.
  revert w. induction options as [|[key value] options IH]; intros w.
  { intros [= <-]. cbn. rewrite app_nil_r. by destruct w. }
  cbn [check_options]. rewrite bind_run. cbn [mbind list_bind fst snd].
  destruct (bool_decide (key ∈ algorithms_available env)).
  - destruct value as [|v [|v' value]]; [done | | done].
    destruct (check_hash_cases env dld_file v key w)
      as [[-> _]|[(actual & -> & _)|[-> _]]]; [| done | done].
    intros ->%IH. cbn. by rewrite <-app_assoc.
  - cbn. by intros ->%IH.
Qed.

Lemma check_options_success_trace_witness :
  (check_options Model.env0 "/srv/charm/b.tgz"
     [("md5", ["md5-3"]); ("note", ["x"; "y"]); ("sha1", ["sha1-3"])] w_old).2
  = {| environ := environ w_old; fs := fs w_old; opener := opener w_old;
       trace := [EvCheckHash "/srv/charm/b.tgz" "md5-3" "md5" true;
                 EvCheckHash "/srv/charm/b.tgz" "sha1-3" "sha1" true] |}.
Proof.
  rewrite (check_options_success_trace Model.env0 "/srv/charm/b.tgz"
             [("md5", ["md5-3"]); ("note", ["x"; "y"]); ("sha1", ["sha1-3"])] w_old
             (check_options Model.env0 "/srv/charm/b.tgz"
                [("md5", ["md5-3"]); ("note", ["x"; "y"]); ("sha1", ["sha1-3"])]
                w_old).2).
  - vm_compute. reflexivity.
  - vm_compute. reflexivity.
Defined.

(** ** [install] at its edges *)

(** Without [CHARM_DIR] in the environment [install] raises [TypeError]
    (from [os.path.join] on [None]) before it touches anything: no
    directory is made and nothing is downloaded. *)
Theorem install_without_charm_dir (env : Env) (source : string)
    (dest checksum hash_type : option string) (w : World) (url_parts : ParseResult) :
  parse_url env source = inr url_parts →
  environ w !! "CHARM_DIR" = None →
  ∃ msg, install env source dest checksum hash_type w = (inl (TypeError msg), w).
Proof.
  intros Hparse Hroot. unfold install. unfold_M. rewrite Hparse, Hroot. by eexists.
Qed.

Lemma install_without_charm_dir_witness :
  ∃ msg, install Model.env0 "http://example.com/b.tgz" None None None w_no_charm_dir
         = (inl (TypeError msg), w_no_charm_dir).
Proof.
  apply (install_without_charm_dir Model.env0 "http://example.com/b.tgz" None None None
           w_no_charm_dir
           (mkParseResult "http" "example.com" "/b.tgz" EmptyString EmptyString
              EmptyString)).
  - vm_compute. reflexivity.
  - vm_compute. reflexivity.
Defined.

(** When the directory of the downloads is missing and [mkdir] fails,
    [install] raises the error of [mkdir] as it is, not wrapped in
    [UnhandledSource] as an error of the download would be, and the
    download does not start. *)
Theorem install_mkdir_failure (env : Env) (source : string)
    (dest checksum hash_type : option string) (w : World) (url_parts : ParseResult)
    (root : string) (e : exn) :
  parse_url env source = inr url_parts →
  environ w !! "CHARM_DIR" = Some root →
  fs w !! os_path_join root "fetched" = None →
  mkdir_error env (fs w) (os_path_join root "fetched") = Some e →
  install env source dest checksum hash_type w =
  (inl e, add_event (EvMkdir (os_path_join root "fetched") 493) w).
Proof.
  intros Hparse Hroot Hdir Herr. rewrite install_phases.
  unfold install_prepare. unfold_M. rewrite Hparse, Hroot.
  unfold path_exists. rewrite Hdir. cbn [negb]. by rewrite mkdir_run, Herr.
Qed.

Lemma install_mkdir_failure_witness :
  install env_readonly "http://example.com/b.tgz" None None None Model.w0 =
  (inl (OSError (PStr "Permission denied")),
   add_event (EvMkdir "/srv/charm/fetched" 493) Model.w0).
Proof.
  apply (install_mkdir_failure env_readonly "http://example.com/b.tgz" None None None
           Model.w0
           (mkParseResult "http" "example.com" "/b.tgz" EmptyString EmptyString
              EmptyString)
           "/srv/charm").
  - vm_compute. reflexivity.
  - vm_compute. reflexivity.
  - vm_compute. reflexivity.
  - reflexivity.
Defined.

Lemma install_fetch_leaves_file (env : Env) (source : string) (w : World)
    (url_parts : ParseResult) (dld_file : string) (w1 : World) :
  install_fetch env source w = (inr (url_parts, dld_file), w1) →
  ∃ data, read_file (fs w1) dld_file = Some data.
Proof.
  rewrite install_fetch_run.
  destruct (install_prepare env source w) as [[e|[parts file]] w0]; [done |].
  destruct (download env source file w0) as [[e|[]] w'] eqn:Hd.
  { by destruct e. }
  intros [= -> -> ->].
  apply download_ok_inv in Hd as (_ & _ & data & _ & _ & _ & ->).
  exists data. unfold read_file. by rewrite lookup_insert_eq.
Qed.

Lemma do_extract_run (env : Env) (file : string) (dest : option string) (w : World) :
  do_extract env file dest w =
  match extract env (fs w) file dest with
  | inl e => (inl e, add_event (EvExtract file dest) w)
  | inr (root, f') => (inr root, set_fs f' (add_event (EvExtract file dest) w))
  end.
Proof.
  unfold do_extract. unfold_M. cbn.
  by destruct (extract env (fs w) file dest) as [e|[root f']].
Qed.

(** The world in which lines 139-150 call the extractor, when they do. *)
Lemma install_verify_extract_run (env : Env) (url_parts : ParseResult) (dld_file : string)
    (dest checksum hash_type : option string) (w1 : World) :
  (∃ e w', install_verify_extract env url_parts dld_file dest checksum hash_type w1
           = (inl e, w')
           ∧ fs w' = fs w1
           ∧ ∃ evs, trace w' = trace w1 ++ evs ∧ ∀ f d, EvExtract f d ∉ evs)
  ∨ (∃ w3, install_verify_extract env url_parts dld_file dest checksum hash_type w1
           = do_extract env dld_file dest w3
           ∧ fs w3 = fs w1
           ∧ ∃ evs, trace w3 = trace w1 ++ evs).
Proof.
  unfold install_verify_extract. rewrite bind_run.
  destruct (check_options env dld_file _ w1) as [[err|[]] w2] eqn:Hopts;
    apply check_options_trace in Hopts as (evs1 & Ht1 & Hfs1 & Hchk1 & _);
    rewrite Forall_forall in Hchk1.
  { left. exists err, w2. split; [done |]. split; [done |]. exists evs1.
    split; [done |]. intros f d Hin. by destruct (Hchk1 _ Hin) as (? & ? & ? & ?). }
  rewrite bind_run.
  destruct checksum as [c|]; [| right; exists w2; by eauto].
  destruct (negb (String.eqb c EmptyString)); [| right; exists w2; by eauto].
  destruct (check_hash_cases env dld_file c (default "sha1" hash_type) w2)
    as [[-> _]|[(actual & -> & _)|[-> _]]].
  - right. eexists. split; [done |]. split; [done |].
    exists (evs1 ++ [EvCheckHash dld_file c (default "sha1" hash_type) true]).
    cbn. by rewrite Ht1, <-app_assoc.
  - left. do 2 eexists. split; [done |]. split; [done |]. cbn.
    exists (evs1 ++ [EvCheckHash dld_file c (default "sha1" hash_type) false]).
    split; [by rewrite Ht1, <-app_assoc |].
    intros f d [Hin|Hin]%elem_of_app.
    + by destruct (Hchk1 _ Hin) as (? & ? & ? & ?).
    + apply elem_of_cons in Hin as [Heq|Hin]; [discriminate |].
      by apply elem_of_nil in Hin.
  - left. do 2 eexists. split; [done |]. split; [done |]. exists evs1.
    split; [done |]. intros f d Hin. by destruct (Hchk1 _ Hin) as (? & ? & ? & ?).
Qed.

(** When [install] has downloaded the file and ends without calling the
    extractor (a check failed or the fragment was malformed), it raises,
    and the downloaded file is still where the download put it: [install]
    does not remove a file that failed its checks. *)
Theorem install_keeps_unverified_download (env : Env) (source : string)
    (dest checksum hash_type : option string) (w : World)
    (url_parts : ParseResult) (dld_file : string) (w1 : World)
    (res : exn + string) (w' : World) :
  install_fetch env source w = (inr (url_parts, dld_file), w1) →
  install env source dest checksum hash_type w = (res, w') →
  (∀ f d, EvExtract f d ∉ new_events w w') →
  (∃ e, res = inl e)
  ∧ fs w' = fs w1
  ∧ ∃ data, read_file (fs w') dld_file = Some data.
Proof.
  intros Hfetch Hrun Hnx.
  destruct (install_fetch_leaves_file env _ _ _ _ _ Hfetch) as (data & Hdata).
  destruct (install_fetch_trace env _ _ _ _ Hfetch) as (evs0 & Ht0 & _ & _).
  rewrite install_after_fetch, Hfetch in Hrun.
  destruct (install_verify_extract_run env url_parts dld_file dest checksum hash_type w1)
    as [(e & w2 & Hv & Hfs & _)|(w3 & Hv & Hfs & evs & Ht)];
    rewrite Hv in Hrun.
  - injection Hrun as <- <-. split; [by eauto |]. split; [done |].
    exists data. by rewrite Hfs.
  - apply do_extract_trace in Hrun. exfalso.
    apply (Hnx dld_file dest).
    rewrite (new_events_app w w' (evs0 ++ evs ++ [EvExtract dld_file dest]))
      by (by rewrite Hrun, Ht, Ht0, <-!app_assoc).
    rewrite !elem_of_app. right. right. by left.
Qed.

Lemma install_keeps_unverified_download_witness :
  let w' := (install Model.env0 "http://example.com/b.tgz#sha1=bad" None None None
               Model.w0).2 in
  (∃ e, (install Model.env0 "http://example.com/b.tgz#sha1=bad" None None None
           Model.w0).1 = inl e)
  ∧ fs w' = fs (install_fetch Model.env0 "http://example.com/b.tgz#sha1=bad" Model.w0).2
  ∧ ∃ data, read_file (fs w') "/srv/charm/fetched/b.tgz" = Some data.
Proof.
  apply (install_keeps_unverified_download Model.env0 "http://example.com/b.tgz#sha1=bad"
           None None None Model.w0
           (mkParseResult "http" "example.com" "/b.tgz" EmptyString EmptyString "sha1=bad")
           "/srv/charm/fetched/b.tgz").
  - vm_compute. reflexivity.
  - by destruct (install Model.env0 _ None None None Model.w0).
  - intros f d. vm_compute. intros Hin.
    repeat (apply elem_of_cons in Hin as [Heq|Hin]; [discriminate |]).
    by apply elem_of_nil in Hin.
Defined.

(** When [install] returns a path, it is the path that the extractor
    returned for the downloaded file and the caller's [dest], and the
    extractor saw the file system as the download had left it. *)
Theorem install_returns_extract_result (env : Env) (source : string)
    (dest checksum hash_type : option string) (w : World) (root : string) (w' : World) :
  install env source dest checksum hash_type w = (inr root, w') →
  ∃ url_parts dld_file w1,
    install_fetch env source w = (inr (url_parts, dld_file), w1)
    ∧ extract env (fs w1) dld_file dest = inr (root, fs w').
Proof.
  rewrite install_after_fetch.
  destruct (install_fetch env source w) as [[e|[url_parts dld_file]] w1]; [done |].
  destruct (install_verify_extract_run env url_parts dld_file dest checksum hash_type w1)
    as [(e & w2 & -> & _)|(w3 & -> & Hfs & _)]; [done |].
  rewrite do_extract_run, Hfs.
  destruct (extract env (fs w1) dld_file dest) as [e|[root' f']] eqn:Hx; [done |].
  intros [= -> <-]. exists url_parts, dld_file, w1. split; [done |]. exact Hx.
Qed.

Lemma install_returns_extract_result_witness :
  ∃ url_parts dld_file w1,
    install_fetch Model.env0 "http://example.com/b.tgz#sha1=sha1-7" Model.w0
    = (inr (url_parts, dld_file), w1)
    ∧ extract Model.env0 (fs w1) dld_file (Some "/opt/app")
      = inr ("/opt/app",
             fs (install Model.env0 "http://example.com/b.tgz#sha1=sha1-7"
                   (Some "/opt/app") None None Model.w0).2).
Proof.
  apply (install_returns_extract_result Model.env0 "http://example.com/b.tgz#sha1=sha1-7"
           (Some "/opt/app") None None Model.w0).
  vm_compute. reflexivity.
Defined.

(** ** [download_and_validate] *)

(** When [urlretrieve] has stored the body in [tempfile],
    [download_and_validate] returns [tempfile] exactly when the digest of
    that file under [validate] (sha1 when left out) equals [hashsum];
    otherwise it raises.  In both cases the file system is the one
    [urlretrieve] left: the temporary file is not removed on a mismatch. *)
Theorem download_and_validate_spec (env : Env)
    (urlretrieve : option passman → gmap string node → string →
                   exn + (string * gmap string node))
    (url hashsum : string) (validate : option string) (w : World)
    (tempfile : string) (f' : gmap string node) (r : exn + string) (w' : World) :
  urlretrieve (opener w) (fs w) url = inr (tempfile, f') →
  download_and_validate env urlretrieve url hashsum validate w = (r, w') →
  fs w' = f'
  ∧ match r with
    | inr file =>
        file = tempfile
        ∧ digest_matches env f' tempfile hashsum (default "sha1" validate) = true
    | inl e =>
        digest_matches env f' tempfile hashsum (default "sha1" validate) = false
        ∧ ((∃ actual, e = IntegrityError hashsum actual)
           ∨ e = UnsupportedAlgorithm (default "sha1" validate))
    end.
Proof.
  intros Hret. unfold download_and_validate, do_urlretrieve.
  unfold mbind, M_bind, log, modify, get_world, mret, M_ret, raise. cbn.
  rewrite Hret.
  destruct (check_hash_cases env tempfile hashsum (default "sha1" validate)
              (set_fs f' (add_event (EvUrlopen url) w)))
    as [[-> Hd]|[(actual & -> & Hd)|[-> Hd]]]; intros [= <- <-]; cbn in *.
  - done.
  - split; [done |]. split; [done |]. left. by eauto.
  - split; [done |]. split; [done |]. by right.
Qed.

Lemma download_and_validate_spec_witness :
  fs (download_and_validate Model.env0 toy_urlretrieve "http://example.com/b.tgz"
        "sha1-0" None Model.w0).2
  = <["/tmp/tmpa1b2" := File (Model.bytes "archive")]> (fs Model.w0)
  ∧ digest_matches Model.env0
      (<["/tmp/tmpa1b2" := File (Model.bytes "archive")]> (fs Model.w0))
      "/tmp/tmpa1b2" "sha1-0" "sha1" = false
  ∧ ((∃ actual, IntegrityError "sha1-0" (Some "sha1-7") = IntegrityError "sha1-0" actual)
     ∨ IntegrityError "sha1-0" (Some "sha1-7") = UnsupportedAlgorithm "sha1").
Proof.
  exact (download_and_validate_spec Model.env0 toy_urlretrieve "http://example.com/b.tgz"
           "sha1-0" None Model.w0 "/tmp/tmpa1b2"
           (<["/tmp/tmpa1b2" := File (Model.bytes "archive")]> (fs Model.w0))
           (inl (IntegrityError "sha1-0" (Some "sha1-7")))
           (download_and_validate Model.env0 toy_urlretrieve "http://example.com/b.tgz"
              "sha1-0" None Model.w0).2
           eq_refl ltac:(vm_compute; reflexivity)).
Defined.

(** ** C10: an empty checksum *)

(** C10.  A run of [install] with the empty string as checksum is the
    fetch, then the checks of the fragment, then the extraction: no
    [check_hash] for the checksum argument stands between the loop and the
    call of the extractor.  So when the download succeeds and the checks of
    the fragment pass, the extractor is called next, every digest computed
    in the run belongs to the loop over the fragment, and [install] ends as
    the extractor does, whatever [hash_type] is.  The run is the run of
    [install] without a checksum. *)
Theorem install_empty_checksum (env : Env) (source : string) (dest hash_type : option string)
    (w : World) :
  install env source dest (Some EmptyString) hash_type w =
    match install_fetch env source w with
    | (inl e, w1) => (inl e, w1)
    | (inr (url_parts, dld_file), w1) =>
        match check_options env dld_file (parse_qs env (fragment url_parts)) w1 with
        | (inl e, w2) => (inl e, w2)
        | (inr _, w2) => do_extract env dld_file dest w2
        end
    end
  ∧ (∀ url_parts dld_file w1 w2,
       install_fetch env source w = (inr (url_parts, dld_file), w1) →
       check_options env dld_file (parse_qs env (fragment url_parts)) w1 = (inr (), w2) →
       ∃ res w',
         install env source dest (Some EmptyString) hash_type w = (res, w')
         ∧ new_events w w' = new_events w w2 ++ [EvExtract dld_file dest]
         ∧ (∀ f e a m, EvCheckHash f e a m ∈ new_events w w' →
              EvCheckHash f e a m ∈ new_events w1 w2)
         ∧ res = match extract env (fs w1) dld_file dest with
                 | inl e => inl e
                 | inr (root, _) => inr root
                 end)
  ∧ install env source dest (Some EmptyString) hash_type w
    = install env source dest None hash_type w.
Proof.
  assert (install env source dest (Some EmptyString) hash_type w =
    match install_fetch env source w with
    | (inl e, w1) => (inl e, w1)
    | (inr (url_parts, dld_file), w1) =>
        match check_options env dld_file (parse_qs env (fragment url_parts)) w1 with
        | (inl e, w2) => (inl e, w2)
        | (inr _, w2) => do_extract env dld_file dest w2
        end
    end) as Hrun.
  { rewrite install_after_fetch.
    destruct (install_fetch env source w) as [[e|[url_parts dld_file]] w1]; [done |].
    unfold install_verify_extract. rewrite !bind_run.
    by destruct (check_options env dld_file _ w1) as [[e|[]] w2]. }
  split; [exact Hrun |]. split; [| reflexivity].
  intros url_parts dld_file w1 w2 Hfetch Hopts. rewrite Hrun, Hfetch, Hopts.
  destruct (install_fetch_trace env _ _ _ _ Hfetch) as (evs0 & Ht0 & Hq0 & _).
  destruct (check_options_trace env _ _ _ _ _ Hopts) as (evs1 & Ht1 & Hfs1 & Hchk1 & _).
  rewrite Forall_forall in Hq0.
  rewrite do_extract_run, Hfs1.
  assert (∀ w', trace w' = trace w2 ++ [EvExtract dld_file dest] →
    new_events w w' = new_events w w2 ++ [EvExtract dld_file dest]
    ∧ ∀ f e a m, EvCheckHash f e a m ∈ new_events w w' →
        EvCheckHash f e a m ∈ new_events w1 w2) as Hevents.
  { intros w' Ht'.
    rewrite (new_events_app w w2 (evs0 ++ evs1)) by (by rewrite Ht1, Ht0, <-app_assoc).
    rewrite (new_events_app w1 w2 evs1) by done.
    rewrite (new_events_app w w' ((evs0 ++ evs1) ++ [EvExtract dld_file dest]))
      by (by rewrite Ht', Ht1, Ht0, <-!app_assoc).
    split; [done |]. intros f e a m.
    rewrite !elem_of_app. intros [[Hin|Hin]|Hin]; [destruct (Hq0 _ Hin) | done |].
    apply elem_of_cons in Hin as [Heq|Hin]; [discriminate |].
    by apply elem_of_nil in Hin. }
  destruct (extract env (fs w1) dld_file dest) as [e|[root f']].
  - exists (inl e), (add_event (EvExtract dld_file dest) w2). split; [done |].
    by destruct (Hevents (add_event (EvExtract dld_file dest) w2) eq_refl).
  - exists (inr root), (set_fs f' (add_event (EvExtract dld_file dest) w2)).
    split; [done |].
    by destruct (Hevents (set_fs f' (add_event (EvExtract dld_file dest) w2)) eq_refl).
Qed.

Lemma install_empty_checksum_witness :
  let source := "http://example.com/b.tgz#sha1=sha1-7" in
  let w1 := (install_fetch Model.env0 source Model.w0).2 in
  let w2 := (check_options Model.env0 "/srv/charm/fetched/b.tgz" [("sha1", ["sha1-7"])]
               w1).2 in
  hash_fn Model.env0 "whirlpool" = None
  ∧ ∃ res w',
      install Model.env0 source None (Some EmptyString) (Some "whirlpool") Model.w0
      = (res, w')
      ∧ new_events Model.w0 w'
        = new_events Model.w0 w2 ++ [EvExtract "/srv/charm/fetched/b.tgz" None]
      ∧ (∀ f e a m, EvCheckHash f e a m ∈ new_events Model.w0 w' →
           EvCheckHash f e a m ∈ new_events w1 w2)
      ∧ res = inr "/srv/charm/archives/a".
Proof.
  cbv zeta. split; [reflexivity |].
  apply (proj1 (proj2 (install_empty_checksum Model.env0
                         "http://example.com/b.tgz#sha1=sha1-7" None (Some "whirlpool")
                         Model.w0))
           (mkParseResult "http" "example.com" "/b.tgz" EmptyString EmptyString
              "sha1=sha1-7")
           "/srv/charm/fetched/b.tgz").
  - vm_compute. reflexivity.
  - vm_compute. reflexivity.
Defined.
